(** * Command observations of OpenHands: a shallow embedding

    Source: [openhands/events/observation/commands.py] (the metadata codec
    [CmdOutputMetadata], the truncation of command output, the single-command
    observation [CmdOutputObservation], the per-command record
    [ParallelCmdResult] and the batch observation
    [ParallelCmdOutputObservation]), together with
    [openhands/events/action/commands.py] for the batch action.

    Python values are embedded as follows.
    - [str] is a sequence of Unicode code points: [pystr := list N].
      Literals are written with [py "..."], which reads each character of the
      (ASCII) literal as its code point.
    - [int] is [Z] (Python integers are unbounded).
    - an exception is a value of [exn]; a computation that may raise returns
      [result A]. *)

From Stdlib Require Import ZArith NArith Ascii String Lia Bool DecimalPos.
From stdpp Require Import base tactics option list sorting.

Open Scope Z_scope.

(** ** Python strings *)

Abbreviation codepoint := N (only parsing).
Abbreviation pystr := (list N) (only parsing).

Definition py (s : string) : pystr :=
  N_of_ascii <$> list_ascii_of_string s.

(** [len(s)] as a Python integer. *)
Definition len {A} (s : list A) : Z := Z.of_nat (length s).

(** Python slices with one bound, [s[:k]] and [s[k:]], for any integer [k]: a
    negative bound counts from the end and a bound outside the string is
    clamped.  [s[-0:]] is [s[0:]], the whole string. *)
Definition slice_to {A} (s : list A) (k : Z) : list A :=
  if 0 <=? k then take (Z.to_nat k) s
  else take (Z.to_nat (len s + k)) s.

Definition slice_from {A} (s : list A) (k : Z) : list A :=
  if 0 <=? k then drop (Z.to_nat k) s
  else drop (Z.to_nat (len s + k)) s.

(** ** String methods *)

Module Str.

(** [str.isspace] on one code point, the set [str.strip()] removes. *)
Definition is_space (c : codepoint) : bool :=
  (((9 <=? c) && (c <=? 13)) || ((28 <=? c) && (c <=? 32))
   || (c =? 133) || (c =? 160) || (c =? 5760)
   || ((8192 <=? c) && (c <=? 8202)) || (c =? 8232) || (c =? 8233)
   || (c =? 8239) || (c =? 8287) || (c =? 12288))%N.

(** Removal of the leading characters that satisfy [sp], and of the leading
    and trailing ones. *)
Fixpoint lstrip_with (sp : codepoint -> bool) (s : pystr) : pystr :=
  match s with
  | c :: s' => if sp c then lstrip_with sp s' else s
  | [] => []
  end.

Definition strip_with (sp : codepoint -> bool) (s : pystr) : pystr :=
  reverse (lstrip_with sp (reverse (lstrip_with sp s))).

(** [s.strip()] *)
Definition strip (s : pystr) : pystr := strip_with is_space s.

(** ASCII lower case of a code point. *)
Definition lower (c : codepoint) : codepoint :=
  if ((65 <=? c) && (c <=? 90))%N then (c + 32)%N else c.

(** [s.startswith(p)] *)
Fixpoint startswith (p s : pystr) : bool :=
  match p, s with
  | [], _ => true
  | a :: p', b :: s' => (a =? b)%N && startswith p' s'
  | _ :: _, [] => false
  end.

(** When [s] starts with the literal [p], what follows it. *)
Fixpoint strip_prefix (p s : pystr) : option pystr :=
  match p, s with
  | [], _ => Some s
  | a :: p', b :: s' => if (a =? b)%N then strip_prefix p' s' else None
  | _ :: _, [] => None
  end.

(** [s.find(p)]: the index of the first occurrence of [p] in [s]. *)
Fixpoint find (p s : pystr) {struct s} : option nat :=
  if startswith p s then Some O
  else match s with
       | [] => None
       | _ :: s' => S <$> find p s'
       end.

(** [sep.join(l)] *)
Fixpoint join (sep : pystr) (l : list pystr) : pystr :=
  match l with
  | [] => []
  | [x] => x
  | x :: l' => x ++ sep ++ join sep l'
  end.

(** [s.replace(old, new)] for a one-character [old]. *)
Definition replace_char (old : codepoint) (new : pystr) (s : pystr) : pystr :=
  c ← s; if (c =? old)%N then new else [c].

End Str.

(** ** Exceptions *)

Inductive exn : Set :=
  | JSONDecodeError
  | ValueError
  | TypeError
  | OverflowError
  | KeyError
  | AttributeError
  | ValidationError.

Inductive result (A : Type) : Type :=
  | Ok (a : A)
  | Raise (e : exn).
Arguments Ok {A} a.
Arguments Raise {A} e.

#[export] Instance result_ret : MRet result := fun A a => Ok a.
#[export] Instance result_bind : MBind result := fun A B k r =>
  match r with
  | Ok a => k a
  | Raise e => Raise e
  end.
#[export] Instance result_fmap : FMap result := fun A B f r =>
  match r with
  | Ok a => Ok (f a)
  | Raise e => Raise e
  end.

#[export] Instance exn_eq_dec : EqDecision exn.
Proof. solve_decision. Defined.

(** The class an exception class derives from, among the classes above
    ([JSONDecodeError] and pydantic's [ValidationError] are [ValueError]s;
    [OverflowError] is an [ArithmeticError], which no handler here names). *)
Definition base_class (e : exn) : option exn :=
  match e with
  | JSONDecodeError | ValidationError => Some ValueError
  | _ => None
  end.

(** [isinstance(e, c)] for an exception [e] and a class [c]. *)
Definition isinstance (e c : exn) : bool :=
  bool_decide (e = c) || bool_decide (base_class e = Some c).

(** [try: r  except (c1, c2, ...): h] *)
Definition try_except {A} (r : result A) (handled : list exn) (h : result A)
  : result A :=
  match r with
  | Ok a => Ok a
  | Raise e => if existsb (isinstance e) handled then h else Raise e
  end.

(** ** Output truncation *)

Module Truncator.

(** [MAX_CMD_OUTPUT_SIZE: int = 30000] *)
Definition MAX_CMD_OUTPUT_SIZE : Z := 30000.

Definition TRUNCATION_MARKER : pystr :=
  py (String "010" "[... Observation truncated due to length ...]"
        ++ String "010" "")%string.

(** [CmdOutputObservation._maybe_truncate(content, max_size)]; the debug log
    line has no effect on the value. *)
Definition _maybe_truncate (content : pystr) (max_size : Z) : pystr :=
  if len content <=? max_size then content
  else
    let half := max_size / 2 in
    slice_to content half ++ TRUNCATION_MARKER ++ slice_from content (- half).

End Truncator.

(** ** Python values

    The values [json.loads] produces and that dictionaries hold.  A [dict] is
    an association list in insertion order with unique keys (keys of the
    dictionaries here are always strings). *)

(** A [float] is an IEEE 754 binary64 number.  A finite one is written
    [(-1)^neg * m * 2^e]; only its value matters here, so the pair [(m, e)] is
    not normalised. *)
Inductive pyfloat : Set :=
  | FFinite (neg : bool) (m : Z) (e : Z)
  | FInf (neg : bool)
  | FNaN.

#[local] Set Warnings "-register-all".
Inductive pyobj : Type :=
  | PNone
  | PBool (b : bool)
  | PInt (n : Z)
  | PFloat (x : pyfloat)
  | PStr (s : pystr)
  | PList (l : list pyobj)
  | PDict (d : list (pystr * pyobj)).

Abbreviation pydict := (list (list N * pyobj)) (only parsing).

Definition pystr_eqb (a b : pystr) : bool := bool_decide (a = b).

(** [d.get(k)] *)
Fixpoint dict_get (k : pystr) (d : pydict) : option pyobj :=
  match d with
  | [] => None
  | (k', v) :: d' => if pystr_eqb k k' then Some v else dict_get k d'
  end.

(** [d[k] = v]: an existing key keeps its position. *)
Fixpoint dict_set (k : pystr) (v : pyobj) (d : pydict) : pydict :=
  match d with
  | [] => [(k, v)]
  | (k', v') :: d' =>
      if pystr_eqb k k' then (k, v) :: d' else (k', v') :: dict_set k v d'
  end.

(** ** Numbers: [int], [float] and their conversions *)

Module Num.

Definition is_digit (c : codepoint) : bool := ((48 <=? c) && (c <=? 57))%N.
Definition digit_val (c : codepoint) : Z := Z.of_N c - 48.

(** The value of a run of decimal digits. *)
Definition Z_of_digits (ds : pystr) : Z :=
  foldl (fun acc c => 10 * acc + digit_val c) 0 ds.

(** Longest prefix of decimal digits, and what follows it. *)
Fixpoint span_digits (s : pystr) : pystr * pystr :=
  match s with
  | c :: s' =>
      if is_digit c then let '(ds, r) := span_digits s' in (c :: ds, r)
      else ([], s)
  | [] => ([], [])
  end.

(** The binary64 number nearest to the positive rational [n / d], ties to
    even; [inf] when the rounded value does not fit.  [q] is the exponent of
    the unit in the last place: 53 significant bits, and no smaller than that
    of the subnormal numbers. *)
Definition round_double (neg : bool) (n d : Z) : pyfloat :=
  if n <=? 0 then FFinite neg 0 0
  else
    let e0 := Z.log2 n - Z.log2 d in
    let below := if 0 <=? e0 then n <? d * 2 ^ e0 else n * 2 ^ (- e0) <? d in
    let e := if below then e0 - 1 else e0 in
    let q := Z.max (e - 52) (-1074) in
    let num := if 0 <=? q then n else n * 2 ^ (- q) in
    let den := if 0 <=? q then d * 2 ^ q else d in
    let m := num / den in
    let r := num mod den in
    let m' := if (den <? 2 * r) || ((den =? 2 * r) && Z.odd m) then m + 1 else m in
    if 2 ^ 1024 <=? m' * 2 ^ q then FInf neg else FFinite neg m' q.

(** [m * 10^e10] as a float. *)
Definition float_of_decimal (neg : bool) (m e10 : Z) : pyfloat :=
  if 0 <=? e10 then round_double neg (m * 10 ^ e10) 1
  else round_double neg m (10 ^ (- e10)).

(** [int(x)] for a float [x]: truncation toward zero; [OverflowError] for an
    infinity and [ValueError] for a NaN. *)
Definition int_of_float (x : pyfloat) : result Z :=
  match x with
  | FFinite neg m e =>
      let a := if 0 <=? e then m * 2 ^ e else m / 2 ^ (- e) in
      Ok (if neg then - a else a)
  | FInf _ => Raise OverflowError
  | FNaN => Raise ValueError
  end.

(** Underscores in a numeric literal are dropped, and are legal only between
    two digits.  [prev] is the preceding character (0 at the start). *)
Fixpoint drop_underscores (prev : codepoint) (s : pystr) : option pystr :=
  match s with
  | [] => if (prev =? 95)%N then None else Some []
  | c :: s' =>
      if (c =? 95)%N then
        if is_digit prev then drop_underscores c s' else None
      else if (prev =? 95)%N && negb (is_digit c) then None
      else cons c <$> drop_underscores c s'
  end.

(** An optional exponent part [[eE][+-]?digits] in front of [s]: its value
    and the rest.  When no well-formed exponent is there, nothing is
    consumed. *)
Definition parse_exponent (s : pystr) : Z * pystr :=
  match s with
  | c :: s1 =>
      if (Str.lower c =? 101)%N then
        let '(eneg, s2) :=
          match s1 with
          | sg :: s2 =>
              if (sg =? 45)%N then (true, s2)
              else if (sg =? 43)%N then (false, s2)
              else (false, s1)
          | [] => (false, s1)
          end in
        let '(ds, r) := span_digits s2 in
        match ds with
        | [] => (0, s)
        | _ => ((if eneg then - Z_of_digits ds else Z_of_digits ds), r)
        end
      else (0, s)
  | [] => (0, s)
  end.

(** A decimal numeral [digits [. digits] [exponent]] with at least one digit
    in front of the exponent, which must be the whole of [s]. *)
Definition parse_decimal (neg : bool) (s : pystr) : result pyfloat :=
  let '(ip, s1) := span_digits s in
  let '(fp, s2) :=
    match s1 with
    | c :: s1' => if (c =? 46)%N then span_digits s1' else ([], s1)
    | [] => ([], s1)
    end in
  match ip ++ fp with
  | [] => Raise ValueError
  | ds =>
      let '(ex, s3) := parse_exponent s2 in
      match s3 with
      | [] => Ok (float_of_decimal neg (Z_of_digits ds) (ex - len fp))
      | _ => Raise ValueError
      end
  end.

(** The whitespace [float] skips around a numeral: the ASCII characters tab
    to carriage return and space, and the whitespace outside ASCII (the
    separators 28 to 31 are not skipped). *)
Definition is_float_space (c : codepoint) : bool :=
  Str.is_space c && negb ((28 <=? c) && (c <=? 31))%N.

(** [float(s)] for a string [s]: underscores between digits are dropped,
    surrounding whitespace is skipped, then comes a sign, then [inf],
    [infinity] or [nan] in any letter case, or a decimal numeral.  Anything
    else is a [ValueError].  Decimal digits outside ASCII, which [float] also
    accepts, are not covered: they are read as invalid. *)
Definition float_of_str (s : pystr) : result pyfloat :=
  match drop_underscores 0%N s with
  | None => Raise ValueError
  | Some t =>
      let t := Str.strip_with is_float_space t in
      let '(neg, body) :=
        match t with
        | c :: t' =>
            if (c =? 45)%N then (true, t')
            else if (c =? 43)%N then (false, t')
            else (false, t)
        | [] => (false, t)
        end in
      let low := Str.lower <$> body in
      if pystr_eqb low (py "inf") || pystr_eqb low (py "infinity") then
        Ok (FInf neg)
      else if pystr_eqb low (py "nan") then Ok FNaN
      else parse_decimal neg body
  end.

(** [float(str(n))] for an integer [n]: [str(n)] is the decimal numeral of
    [n], so the result is the float nearest to [n]. *)
Definition float_of_int (n : Z) : pyfloat :=
  round_double (n <? 0) (Z.abs n) 1.

(** The digits of a decimal numeral, most significant first. *)
Fixpoint digits_of_uint (u : Decimal.uint) : pystr :=
  match u with
  | Decimal.Nil => []
  | Decimal.D0 u => 48%N :: digits_of_uint u
  | Decimal.D1 u => 49%N :: digits_of_uint u
  | Decimal.D2 u => 50%N :: digits_of_uint u
  | Decimal.D3 u => 51%N :: digits_of_uint u
  | Decimal.D4 u => 52%N :: digits_of_uint u
  | Decimal.D5 u => 53%N :: digits_of_uint u
  | Decimal.D6 u => 54%N :: digits_of_uint u
  | Decimal.D7 u => 55%N :: digits_of_uint u
  | Decimal.D8 u => 56%N :: digits_of_uint u
  | Decimal.D9 u => 57%N :: digits_of_uint u
  end.

(** [str(n)] for an integer [n], which is also how an f-string prints it. *)
Definition str_of_int (n : Z) : pystr :=
  match n with
  | Z0 => [48%N]
  | Zpos p => digits_of_uint (Pos.to_uint p)
  | Zneg p => 45%N :: digits_of_uint (Pos.to_uint p)
  end.

End Num.

(** ** [json.loads]

    The decoder of the standard library, with its default settings
    ([strict=True], no hooks).  The scanning functions return [None] where
    the decoder fails, and [loads] turns that into the one exception the
    decoder raises for a text that is not JSON, [JSONDecodeError].  Positions
    in the text are kept as the remaining suffix. *)

Module Json.

Definition is_ws (c : codepoint) : bool :=
  ((c =? 32) || (c =? 9) || (c =? 10) || (c =? 13))%N.

(** [WHITESPACE.match(s, end).end()] *)
Fixpoint skip_ws (s : pystr) : pystr :=
  match s with
  | c :: s' => if is_ws c then skip_ws s' else s
  | [] => []
  end.

Definition hex_val (c : codepoint) : option N :=
  if ((48 <=? c) && (c <=? 57))%N then Some (c - 48)%N
  else if ((97 <=? c) && (c <=? 102))%N then Some (c - 87)%N
  else if ((65 <=? c) && (c <=? 70))%N then Some (c - 55)%N
  else None.

(** The four hexadecimal digits of a [\uXXXX] escape. *)
Definition hex4 (a b c d : codepoint) : option N :=
  x1 ← hex_val a; x2 ← hex_val b; x3 ← hex_val c; x4 ← hex_val d;
  Some (((x1 * 16 + x2) * 16 + x3) * 16 + x4)%N.

(** The table [BACKSLASH] of one-letter escapes. *)
Definition BACKSLASH (c : codepoint) : option codepoint :=
  if (c =? 34)%N then Some 34%N          (* quote *)
  else if (c =? 92)%N then Some 92%N     (* backslash *)
  else if (c =? 47)%N then Some 47%N     (* slash *)
  else if (c =? 98)%N then Some 8%N      (* b: backspace *)
  else if (c =? 102)%N then Some 12%N    (* f: form feed *)
  else if (c =? 110)%N then Some 10%N    (* n: newline *)
  else if (c =? 114)%N then Some 13%N    (* r: carriage return *)
  else if (c =? 116)%N then Some 9%N     (* t: tab *)
  else None.

Definition is_high_surrogate (u : N) : bool := ((55296 <=? u) && (u <=? 56319))%N.
Definition is_low_surrogate (u : N) : bool := ((56320 <=? u) && (u <=? 57343))%N.

(** [scanstring(s, end)] with [s] the text just after the opening quote:
    the decoded string and the text after the closing quote.  [acc] holds the
    characters decoded so far, last first. *)
Fixpoint scanstring (s : pystr) (acc : pystr) {struct s} : option (pystr * pystr) :=
  match s with
  | [] => None
  | c :: s1 =>
      if (c =? 34)%N then Some (reverse acc, s1)
      else if (c =? 92)%N then
        match s1 with
        | [] => None
        | esc :: s2 =>
            if (esc =? 117)%N then
              match s2 with
              | h1 :: h2 :: h3 :: h4 :: s6 =>
                  match hex4 h1 h2 h3 h4 with
                  | None => None
                  | Some uni =>
                      match s6 with
                      | b :: u :: g1 :: g2 :: g3 :: g4 :: s12 =>
                          if is_high_surrogate uni && (b =? 92)%N && (u =? 117)%N then
                            match hex4 g1 g2 g3 g4 with
                            | None => None
                            | Some uni2 =>
                                if is_low_surrogate uni2 then
                                  scanstring s12
                                    ((65536 + (uni - 55296) * 1024 + (uni2 - 56320))%N :: acc)
                                else scanstring s6 (uni :: acc)
                            end
                          else scanstring s6 (uni :: acc)
                      | _ => scanstring s6 (uni :: acc)
                      end
                  end
              | _ => None
              end
            else
              match BACKSLASH esc with
              | Some ch => scanstring s2 (ch :: acc)
              | None => None
              end
        end
      else if (c <? 32)%N then None
      else scanstring s1 (c :: acc)
  end.

(** [NUMBER_RE.match] in front of [s]: an optional minus sign and either a
    single 0 or a run of digits that does not start with 0; then, optionally,
    a dot and one or more digits; then, optionally, e or E, an optional sign
    and one or more digits.  Returns the integer part, the fraction and exponent parts
    (empty when absent) and the rest. *)
Definition match_number (s : pystr) : option (pystr * pystr * pystr * pystr) :=
  let '(sign, s0) :=
    match s with
    | c :: s' => if (c =? 45)%N then ([c], s') else ([], s)
    | [] => ([], s)
    end in
  let int_part :=
    match s0 with
    | c :: s1 =>
        if (c =? 48)%N then Some ([c], s1)
        else if Num.is_digit c then
          let '(ds, r) := Num.span_digits s1 in Some (c :: ds, r)
        else None
    | [] => None
    end in
  match int_part with
  | None => None
  | Some (ip, s1) =>
      let '(frac, s2) :=
        match s1 with
        | c :: s1' =>
            if (c =? 46)%N then
              match Num.span_digits s1' with
              | ([], _) => ([], s1)
              | (ds, r) => (c :: ds, r)
              end
            else ([], s1)
        | [] => ([], s1)
        end in
      let '(ex, s3) :=
        match s2 with
        | c :: s2' =>
            if (c =? 101)%N || (c =? 69)%N then
              let '(sg, s2'') :=
                match s2' with
                | g :: t => if (g =? 45)%N || (g =? 43)%N then ([g], t) else ([], s2')
                | [] => ([], s2')
                end in
              match Num.span_digits s2'' with
              | ([], _) => ([], s2)
              | (ds, r) => (c :: sg ++ ds, r)
              end
            else ([], s2)
        | [] => ([], s2)
        end in
      Some (sign ++ ip, frac, ex, s3)
  end.

(** [int(integer)] for a text matched by the integer part of [NUMBER_RE]. *)
Definition int_of_numeral (t : pystr) : Z :=
  match t with
  | c :: t' => if (c =? 45)%N then - Num.Z_of_digits t' else Num.Z_of_digits t
  | [] => 0
  end.

(** [scan_once], [JSONObject] and [JSONArray].  Each call and each turn of the
    two loops takes one unit of [fuel] and reads at least one character, so
    the length of the text is always enough. *)
Fixpoint scan_once (fuel : nat) (s : pystr) {struct fuel} : option (pyobj * pystr) :=
  match fuel with
  | O => None
  | S fuel =>
      (* the members of an object, after a key's opening quote *)
      let fix members (n : nat) (s : pystr) (pairs : pydict) {struct n}
        : option (pyobj * pystr) :=
        match n with
        | O => None
        | S n =>
            '(key, s1) ← scanstring s [];
            match skip_ws s1 with
            | c :: s2 =>
                if (c =? 58)%N then
                  '(value, s3) ← scan_once fuel (skip_ws s2);
                  let pairs := dict_set key value pairs in
                  match skip_ws s3 with
                  | d :: s4 =>
                      if (d =? 125)%N then Some (PDict pairs, s4)
                      else if (d =? 44)%N then
                        match skip_ws s4 with
                        | q :: s5 =>
                            if (q =? 34)%N then members n s5 pairs
                            else None
                        | [] => None
                        end
                      else None
                  | [] => None
                  end
                else None
            | [] => None
            end
        end in
      (* the elements of an array, at the start of a value *)
      let fix elements (n : nat) (s : pystr) (values : list pyobj) {struct n}
        : option (pyobj * pystr) :=
        match n with
        | O => None
        | S n =>
            '(value, s1) ← scan_once fuel s;
            let values := values ++ [value] in
            match skip_ws s1 with
            | d :: s2 =>
                if (d =? 93)%N then Some (PList values, s2)
                else if (d =? 44)%N then elements n (skip_ws s2) values
                else None
            | [] => None
            end
        end in
      match s with
      | [] => None
      | c :: s1 =>
          if (c =? 34)%N then
            '(str, r) ← scanstring s1 []; Some (PStr str, r)
          else if (c =? 123)%N then
            match skip_ws s1 with
            | q :: s2 =>
                if (q =? 125)%N then Some (PDict [], s2)
                else if (q =? 34)%N then members fuel s2 []
                else None
            | [] => None
            end
          else if (c =? 91)%N then
            match skip_ws s1 with
            | q :: s2 =>
                if (q =? 93)%N then Some (PList [], s2)
                else elements fuel (q :: s2) []
            | [] => None
            end
          else
            match Str.strip_prefix (py "null") s,
                  Str.strip_prefix (py "true") s,
                  Str.strip_prefix (py "false") s with
            | Some r, _, _ => Some (PNone, r)
            | _, Some r, _ => Some (PBool true, r)
            | _, _, Some r => Some (PBool false, r)
            | None, None, None =>
                match match_number s with
                | Some (ip, frac, ex, r) =>
                    match frac ++ ex with
                    | [] => Some (PInt (int_of_numeral ip), r)
                    | _ =>
                        match Num.float_of_str (ip ++ frac ++ ex) with
                        | Ok x => Some (PFloat x, r)
                        | Raise _ => None
                        end
                    end
                | None =>
                    match Str.strip_prefix (py "NaN") s,
                          Str.strip_prefix (py "Infinity") s,
                          Str.strip_prefix (py "-Infinity") s with
                    | Some r, _, _ => Some (PFloat FNaN, r)
                    | _, Some r, _ => Some (PFloat (FInf false), r)
                    | _, _, Some r => Some (PFloat (FInf true), r)
                    | None, None, None => None
                    end
                end
            end
      end
  end.

(** [JSONDecoder.decode]: one value between optional whitespace, and nothing
    after it. *)
Definition decode (s : pystr) : option pyobj :=
  '(obj, r) ← scan_once (S (length s)) (skip_ws s);
  match skip_ws r with
  | [] => Some obj
  | _ => None
  end.

(** [json.loads(s)]: the decoded value, or a [JSONDecodeError]. *)
Definition loads (s : pystr) : result pyobj :=
  match decode s with
  | Some obj => Ok obj
  | None => Raise JSONDecodeError
  end.

(** One lower-case hexadecimal digit, and the escape [\\uXXXX] of a 16-bit
    code unit. *)
Definition hex_digit (d : N) : codepoint :=
  (if d <? 10 then 48 + d else 87 + d)%N.

Definition u_escape (n : N) : pystr :=
  [92; 117; hex_digit ((n / 4096) mod 16); hex_digit ((n / 256) mod 16);
   hex_digit ((n / 16) mod 16); hex_digit (n mod 16)]%N.

(** What [encode_basestring_ascii] writes for one character: the quote, the
    backslash and the five control characters with a short escape get it; the
    other printable ASCII characters stand for themselves; every other
    character is written as one [u_escape], or as a surrogate pair when it
    lies outside the basic plane. *)
Definition escape_char (c : codepoint) : pystr :=
  (if c =? 34 then [92; 34]
   else if c =? 92 then [92; 92]
   else if c =? 10 then [92; 110]
   else if c =? 13 then [92; 114]
   else if c =? 9 then [92; 116]
   else if c =? 12 then [92; 102]
   else if c =? 8 then [92; 98]
   else if (32 <=? c) && (c <=? 126) then [c]
   else if c <? 65536 then u_escape c
   else
     let v := c - 65536 in
     u_escape (55296 + (v / 1024) mod 1024) ++ u_escape (56320 + v mod 1024))%N.

(** [json.dumps(s)] for a string [s] (with the default [ensure_ascii]). *)
Definition encode_basestring_ascii (s : pystr) : pystr :=
  [34%N] ++ (s ≫= escape_char) ++ [34%N].

(** [json.dumps(d, indent=2)] for a dict [d] from strings to strings: one
    member per line, indented by two spaces, the lines separated by a comma;
    an empty dict is written without a line break. *)
Definition dumps_indent2 (d : list (pystr * pystr)) : pystr :=
  match d with
  | [] => py "{}"
  | _ =>
      py "{" ++ [10%N]
      ++ Str.join (py "," ++ [10%N])
           ((fun kv => py "  " ++ encode_basestring_ascii kv.1 ++ py ": "
                       ++ encode_basestring_ascii kv.2) <$> d)
      ++ [10%N] ++ py "}"
  end.

End Json.

(** ** The metadata codec *)

(** [CMD_OUTPUT_PS1_BEGIN = '\n###PS1JSON###\n'] and
    [CMD_OUTPUT_PS1_END = '\n###PS1END###'] *)
Definition CMD_OUTPUT_PS1_BEGIN : pystr :=
  py (String "010" "###PS1JSON###" ++ String "010" "")%string.
Definition CMD_OUTPUT_PS1_END : pystr :=
  py (String "010" "###PS1END###")%string.

(** The two literals of the pattern, [CMD_OUTPUT_PS1_BEGIN.strip()] and
    [CMD_OUTPUT_PS1_END.strip()]. *)
Definition BEGIN_LITERAL : pystr := Eval cbv in Str.strip CMD_OUTPUT_PS1_BEGIN.
Definition END_LITERAL : pystr := Eval cbv in Str.strip CMD_OUTPUT_PS1_END.

(** A match object of [CMD_OUTPUT_METADATA_PS1_REGEX]: [m.start()], [m.end()]
    and [m.group(1)]. *)
Record Match : Type := mkMatch {
  m_start : nat;
  m_end : nat;
  m_group1 : pystr
}.

Module Regex.

(** The pattern without its anchor, tried at the head of [s]: the BEGIN
    literal, then as few characters as possible (any character, newlines
    included, under [re.DOTALL]), then the END literal.  Returns the length of
    the match and group 1. *)
Definition match_here (s : pystr) : option (nat * pystr) :=
  match Str.strip_prefix BEGIN_LITERAL s with
  | None => None
  | Some r =>
      match Str.find END_LITERAL r with
      | None => None
      | Some k =>
          Some ((length BEGIN_LITERAL + k + length END_LITERAL)%nat, take k r)
      end
  end.

(** [CMD_OUTPUT_METADATA_PS1_REGEX.finditer(string)], read from left to right.
    [s] is the text from position [pos] on; [bol] says whether [pos] is at the
    start of a line (position 0, or just after a newline: the anchor under
    [re.MULTILINE]); [skip] counts the characters of the previous match that
    are still to be passed, since the search resumes where a match ended. *)
Fixpoint finditer_from (s : pystr) (pos : nat) (bol : bool) (skip : nat)
  : list Match :=
  match s with
  | [] => []
  | c :: s' =>
      let bol' := (c =? 10)%N in
      match skip with
      | S k => finditer_from s' (S pos) bol' k
      | O =>
          match (if bol then match_here s else None) with
          | Some (n, g) =>
              mkMatch pos (pos + n) g :: finditer_from s' (S pos) bol' (n - 1)
          | None => finditer_from s' (S pos) bol' 0
          end
      end
  end.

Definition finditer (string : pystr) : list Match :=
  finditer_from string 0 true 0.

End Regex.

Module CmdOutputMetadata.

(** The pydantic model [CmdOutputMetadata]. *)
Record t : Type := mk {
  exit_code : Z;
  pid : Z;
  username : option pystr;
  hostname : option pystr;
  working_dir : option pystr;
  py_interpreter_path : option pystr;
  prefix : pystr;
  suffix : pystr
}.

(** [CmdOutputMetadata()] *)
Definition default : t :=
  mk (-1) (-1) None None None None [] [].

(** Validation of one keyword argument against its declared type.  An int
    field takes an [int], an optional text field [None] or a [str], a text
    field a [str]; an absent argument gives the default.  (pydantic's lax mode
    would also turn some other values, such as the text of a numeral, into an
    [int]; nothing below depends on what happens to those.) *)
Definition int_field (kw : pydict) (k : string) (dflt : Z) : result Z :=
  match dict_get (py k) kw with
  | None => Ok dflt
  | Some (PInt n) => Ok n
  | Some _ => Raise ValidationError
  end.

Definition opt_str_field (kw : pydict) (k : string) : result (option pystr) :=
  match dict_get (py k) kw with
  | None | Some PNone => Ok None
  | Some (PStr s) => Ok (Some s)
  | Some _ => Raise ValidationError
  end.

Definition str_field (kw : pydict) (k : string) : result pystr :=
  match dict_get (py k) kw with
  | None => Ok []
  | Some (PStr s) => Ok s
  | Some _ => Raise ValidationError
  end.

(** The constructor called with the entries of [kw] as keyword arguments;
    keywords that name no field are ignored. *)
Definition init (kw : pydict) : result t :=
  ec ← int_field kw "exit_code" (-1);
  p ← int_field kw "pid" (-1);
  u ← opt_str_field kw "username";
  h ← opt_str_field kw "hostname";
  w ← opt_str_field kw "working_dir";
  i ← opt_str_field kw "py_interpreter_path";
  pre ← str_field kw "prefix";
  suf ← str_field kw "suffix";
  Ok (mk ec p u h w i pre suf).

Definition dump_opt (o : option pystr) : pyobj :=
  match o with
  | Some s => PStr s
  | None => PNone
  end.

(** [self.model_dump()] *)
Definition model_dump (self : t) : pydict :=
  [ (py "exit_code", PInt (exit_code self));
    (py "pid", PInt (pid self));
    (py "username", dump_opt (username self));
    (py "hostname", dump_opt (hostname self));
    (py "working_dir", dump_opt (working_dir self));
    (py "py_interpreter_path", dump_opt (py_interpreter_path self));
    (py "prefix", PStr (prefix self));
    (py "suffix", PStr (suffix self)) ].

(** [matches_ps1_metadata]: the loop over the matches of the pattern.  A match
    whose group 1, stripped, is not JSON is skipped (the warning it logs is
    not modelled); [matches] is the list built so far. *)
Fixpoint matches_loop (ms matches : list Match) : result (list Match) :=
  match ms with
  | [] => Ok matches
  | m :: ms' =>
      matches' ← try_except
                   (_ ← Json.loads (Str.strip (m_group1 m)); Ok (matches ++ [m]))
                   [JSONDecodeError]
                   (Ok matches);
      matches_loop ms' matches'
  end.

Definition matches_ps1_metadata (string : pystr) : result (list Match) :=
  matches_loop (Regex.finditer string) [].

(** [float(str(v))].  [str] of a text is the text itself and [str] of an
    integer its decimal numeral.  [str] of a float is its [repr], which
    [float] reads back to the same float.  [str] of [True], [False], [None],
    a list or a dict is a text no numeral starts like. *)
Definition float_of_str_of (v : pyobj) : result pyfloat :=
  match v with
  | PStr s => Num.float_of_str s
  | PInt n => Ok (Num.float_of_int n)
  | PFloat x => Ok x
  | PNone | PBool _ | PList _ | PDict _ => Raise ValueError
  end.

(** [int(float(str(v)))] *)
Definition int_float_str (v : pyobj) : result Z :=
  x ← float_of_str_of v; Num.int_of_float x.

(** One of the two blocks [if k in metadata: try: ... except (ValueError,
    TypeError): processed[k] = -1]. *)
Definition convert_field (k : string) (metadata processed : pydict)
  : result pydict :=
  match dict_get (py k) metadata with
  | None => Ok processed
  | Some v =>
      n ← try_except (int_float_str v) [ValueError; TypeError] (Ok (-1));
      Ok (dict_set (py k) (PInt n) processed)
  end.

(** [from_ps1_match].  A decoded value that is not a dict makes the method
    raise: a list gets as far as the call of [cls] at most, which is a
    [TypeError] (so is every earlier failure on a list); any other value has
    no [copy] method. *)
Definition from_ps1_match (m : Match) : result t :=
  metadata ← Json.loads (m_group1 m);
  match metadata with
  | PDict metadata =>
      let processed := metadata in
      processed ← convert_field "pid" metadata processed;
      processed ← convert_field "exit_code" metadata processed;
      init processed
  | PList _ => Raise TypeError
  | _ => Raise AttributeError
  end.

(** The placeholders [to_ps1_prompt] writes: what the shell expands in its
    prompt to the process id, the exit code, the user, the host, the working
    directory and the Python interpreter. *)
Definition PS1_PLACEHOLDERS : list (pystr * pystr) :=
  [ (py "pid", py "$!");
    (py "exit_code", py "$?");
    (py "username", py "\u");
    (py "hostname", py "\h");
    (py "working_dir", py "$(pwd)");
    (py "py_interpreter_path",
     py "$(which python 2>/dev/null || echo " ++ [34%N; 34%N] ++ py ")") ].

(** [to_ps1_prompt]: the BEGIN marker, the JSON of the placeholders with every
    double quote escaped by a backslash, the END marker and a newline. *)
Definition to_ps1_prompt : pystr :=
  let prompt := CMD_OUTPUT_PS1_BEGIN in
  let json_str := Json.dumps_indent2 PS1_PLACEHOLDERS in
  let prompt := prompt ++ Str.replace_char 34%N [92%N; 34%N] json_str in
  prompt ++ CMD_OUTPUT_PS1_END ++ [10%N].

End CmdOutputMetadata.

(** ** Result records *)

(** The [metadata] argument of the two constructors:
    [dict[str, Any] | CmdOutputMetadata | None]. *)
Inductive metadata_arg : Type :=
  | MetaDict (d : pydict)
  | MetaObject (md : CmdOutputMetadata.t)
  | MetaNone.

(** The [metadata] attribute a constructor stores: a dict is passed to
    [CmdOutputMetadata] as keyword arguments; otherwise it is
    [metadata or CmdOutputMetadata()], and a model instance is always true. *)
Definition metadata_of_arg (metadata : metadata_arg)
  : result CmdOutputMetadata.t :=
  match metadata with
  | MetaDict d => CmdOutputMetadata.init d
  | MetaObject md => Ok md
  | MetaNone => Ok CmdOutputMetadata.default
  end.

Definition set_exit_code (v : Z) (md : CmdOutputMetadata.t) : CmdOutputMetadata.t :=
  CmdOutputMetadata.mk v
    (CmdOutputMetadata.pid md) (CmdOutputMetadata.username md)
    (CmdOutputMetadata.hostname md) (CmdOutputMetadata.working_dir md)
    (CmdOutputMetadata.py_interpreter_path md) (CmdOutputMetadata.prefix md)
    (CmdOutputMetadata.suffix md).

Definition set_pid (v : Z) (md : CmdOutputMetadata.t) : CmdOutputMetadata.t :=
  CmdOutputMetadata.mk (CmdOutputMetadata.exit_code md) v
    (CmdOutputMetadata.username md)
    (CmdOutputMetadata.hostname md) (CmdOutputMetadata.working_dir md)
    (CmdOutputMetadata.py_interpreter_path md) (CmdOutputMetadata.prefix md)
    (CmdOutputMetadata.suffix md).

(** The legacy keyword arguments a constructor looks for in [kwargs]: an
    exit code, and a process id (named [command_id] for the single-command
    observation and [pid] for a batch member). *)
Record legacy_kwargs : Type := mkLegacy {
  kw_exit_code : option Z;
  kw_pid : option Z
}.

Definition no_kwargs : legacy_kwargs := mkLegacy None None.

Definition apply_legacy (kwargs : legacy_kwargs) (md : CmdOutputMetadata.t)
  : CmdOutputMetadata.t :=
  let md := match kw_exit_code kwargs with
            | Some v => set_exit_code v md
            | None => md
            end in
  match kw_pid kwargs with
  | Some v => set_pid v md
  | None => md
  end.

(** [if s:] for an optional text: [None] and the empty text are false. *)
Definition truthy (s : option pystr) : option pystr :=
  match s with
  | Some (c :: s') => Some (c :: s')
  | _ => None
  end.

Module CmdOutputObservation.

Record t : Type := mk {
  content : pystr;
  command : pystr;
  observation : pystr;
  metadata : CmdOutputMetadata.t;
  hidden : bool
}.

(** [__init__]; the parent constructor stores [content]. *)
Definition init (content command observation : pystr) (metadata : metadata_arg)
    (hidden : bool) (kwargs : legacy_kwargs) : result t :=
  let truncate := negb hidden in
  let content :=
    if truncate
    then Truncator._maybe_truncate content Truncator.MAX_CMD_OUTPUT_SIZE
    else content in
  md ← metadata_of_arg metadata;
  Ok (mk content command observation (apply_legacy kwargs md) hidden).

Definition exit_code (self : t) : Z := CmdOutputMetadata.exit_code (metadata self).
Definition command_id (self : t) : Z := CmdOutputMetadata.pid (metadata self).

(** [self.exit_code != 0] *)
Definition error (self : t) : bool := negb (exit_code self =? 0).
Definition success (self : t) : bool := negb (error self).

(** [to_agent_observation]: prefix, content and suffix, then a line for each
    of the working directory and the interpreter that is known, and a line
    for the exit code unless it is -1. *)
Definition to_agent_observation (self : t) : pystr :=
  let md := metadata self in
  let ret := CmdOutputMetadata.prefix md ++ content self
             ++ CmdOutputMetadata.suffix md in
  let ret :=
    match truthy (CmdOutputMetadata.working_dir md) with
    | Some wd => ret ++ [10%N] ++ py "[Current working directory: " ++ wd ++ py "]"
    | None => ret
    end in
  let ret :=
    match truthy (CmdOutputMetadata.py_interpreter_path md) with
    | Some ip => ret ++ [10%N] ++ py "[Python interpreter: " ++ ip ++ py "]"
    | None => ret
    end in
  if negb (CmdOutputMetadata.exit_code md =? -1) then
    ret ++ [10%N] ++ py "[Command finished with exit code "
    ++ Num.str_of_int (CmdOutputMetadata.exit_code md) ++ py "]"
  else ret.

End CmdOutputObservation.

Module ParallelCmdResult.

Record t : Type := mk {
  command : pystr;
  content : pystr;
  metadata : CmdOutputMetadata.t
}.

Definition init (command content : pystr) (metadata : metadata_arg)
    (kwargs : legacy_kwargs) : result t :=
  md ← metadata_of_arg metadata;
  Ok (mk command content (apply_legacy kwargs md)).

Definition exit_code (self : t) : Z := CmdOutputMetadata.exit_code (metadata self).
Definition error (self : t) : bool := negb (exit_code self =? 0).
Definition success (self : t) : bool := negb (error self).

Definition to_dict (self : t) : pydict :=
  [ (py "command", PStr (command self));
    (py "content", PStr (content self));
    (py "metadata", PDict (CmdOutputMetadata.model_dump (metadata self))) ].

(** [data[k]] *)
Definition subscript (data : pydict) (k : string) : result pyobj :=
  match dict_get (py k) data with
  | Some v => Ok v
  | None => Raise KeyError
  end.

(** A value handed to a parameter declared [str]. *)
Definition as_str (v : pyobj) : result pystr :=
  match v with
  | PStr s => Ok s
  | _ => Raise TypeError
  end.

(** The value of [data.get('metadata')] as the [metadata] argument: a dict,
    or [None] (also when the key is absent).  The mapping holds plain values,
    never a model instance. *)
Definition as_metadata_arg (v : option pyobj) : result metadata_arg :=
  match v with
  | None | Some PNone => Ok MetaNone
  | Some (PDict d) => Ok (MetaDict d)
  | Some _ => Raise TypeError
  end.

(** [from_dict].  The record is typed as the class declares its fields, so a
    [command] or [content] that is not a [str], and a [metadata] that is
    neither a dict nor [None], are rejected here. *)
Definition from_dict (data : pydict) : result t :=
  c ← subscript data "command" ≫= as_str;
  o ← subscript data "content" ≫= as_str;
  md ← as_metadata_arg (dict_get (py "metadata") data);
  init c o md no_kwargs.

End ParallelCmdResult.

Module ParallelCmdOutputObservation.

Record t : Type := mk {
  content : pystr;
  results : list ParallelCmdResult.t;
  observation : pystr;
  hidden : bool
}.

(** The loop [for r in results: ...append(...)]: a dict is converted with
    [from_dict], a record is taken as it is. *)
Fixpoint collect (results : list (ParallelCmdResult.t + pydict))
  : result (list ParallelCmdResult.t) :=
  match results with
  | [] => Ok []
  | r :: rest =>
      x ← match r with
          | inl res => Ok res
          | inr d => ParallelCmdResult.from_dict d
          end;
      xs ← collect rest;
      Ok (x :: xs)
  end.

(** [__init__]; [results] is [None] or a list. *)
Definition init (content : pystr)
    (results : option (list (ParallelCmdResult.t + pydict)))
    (observation : pystr) (hidden : bool) : result t :=
  let truncate := negb hidden in
  let content :=
    if truncate
    then Truncator._maybe_truncate content Truncator.MAX_CMD_OUTPUT_SIZE
    else content in
  rs ← match results with
       | Some l => collect l
       | None => Ok []
       end;
  Ok (mk content rs observation hidden).

(** [any(r.error for r in self.results)] *)
Definition error (self : t) : bool := existsb ParallelCmdResult.error (results self).

(** [all(r.success for r in self.results)] *)
Definition success (self : t) : bool := forallb ParallelCmdResult.success (results self).

(** [[r for r in self.results if r.exit_code == exit_code]] *)
Definition get_results_by_exit_code (self : t) (exit_code : Z)
  : list ParallelCmdResult.t :=
  filter (fun r => ParallelCmdResult.exit_code r = exit_code) (results self).

Definition get_successful_results (self : t) : list ParallelCmdResult.t :=
  get_results_by_exit_code self 0.

(** [[r for r in self.results if r.exit_code != 0]] *)
Definition get_failed_results (self : t) : list ParallelCmdResult.t :=
  filter (fun r => ParallelCmdResult.exit_code r ≠ 0) (results self).

(** [sum(1 for r in self.results if r.success)] *)
Definition success_count (self : t) : Z :=
  foldl (fun acc r => if ParallelCmdResult.success r then acc + 1 else acc) 0
    (results self).

(** [message] *)
Definition message (self : t) : pystr :=
  py "Executed " ++ Num.str_of_int (len (results self)) ++ py " commands: "
  ++ Num.str_of_int (success_count self) ++ py " succeeded, "
  ++ Num.str_of_int (len (results self) - success_count self) ++ py " failed".

(** The parts [to_agent_observation] appends for the result numbered [i]. *)
Definition result_parts (i : Z) (result : ParallelCmdResult.t) : list pystr :=
  let md := ParallelCmdResult.metadata result in
  [py "=== Command " ++ Num.str_of_int i ++ py ": "
   ++ ParallelCmdResult.command result ++ py " ===";
   CmdOutputMetadata.prefix md ++ ParallelCmdResult.content result
   ++ CmdOutputMetadata.suffix md]
  ++ match truthy (CmdOutputMetadata.working_dir md) with
     | Some wd => [py "[Working directory: " ++ wd ++ py "]"]
     | None => []
     end
  ++ [py "[Exit code: " ++ Num.str_of_int (ParallelCmdResult.exit_code result)
      ++ py "]"].

(** The loop [for i, result in enumerate(self.results, i): ...]. *)
Fixpoint parts_from (i : Z) (rs : list ParallelCmdResult.t) : list pystr :=
  match rs with
  | [] => []
  | r :: rs' => result_parts i r ++ parts_from (i + 1) rs'
  end.

(** [to_agent_observation] *)
Definition to_agent_observation (self : t) : pystr :=
  Str.join [10%N] (parts_from 1 (results self)).

End ParallelCmdOutputObservation.

(** ** The batch action

    [ParallelCmdRunAction] of [openhands/events/action/commands.py].  The
    bookkeeping fields it inherits from [Action] play no part below, except
    the event source, which [__str__] prints: its printed form is an
    argument. *)

Module ParallelCmdRunAction.

Record t : Type := mk {
  commands : list pystr;
  thought : pystr;
  max_concurrency : Z;
  timeout_per_command : option pyfloat;
  cwd : option pystr;
  hidden : bool
}.

(** The loop [for i, cmd in enumerate(self.commands, i): ret += ...]. *)
Fixpoint command_lines (i : Z) (cmds : list pystr) : pystr :=
  match cmds with
  | [] => []
  | cmd :: cmds' =>
      (py "  " ++ Num.str_of_int i ++ py ". " ++ cmd ++ [10%N])
      ++ command_lines (i + 1) cmds'
  end.

(** [__str__], with [source] the printed form of [self.source]. *)
Definition __str__ (source : pystr) (self : t) : pystr :=
  let ret := py "**ParallelCmdRunAction (source=" ++ source ++ py ", "
             ++ Num.str_of_int (len (commands self)) ++ py " commands)**"
             ++ [10%N] in
  let ret :=
    match thought self with
    | [] => ret
    | _ => ret ++ py "THOUGHT: " ++ thought self ++ [10%N]
    end in
  let ret := ret ++ py "COMMANDS:" ++ [10%N] in
  ret ++ command_lines 1 (commands self).

End ParallelCmdRunAction.

(** ** The parallel orchestrator *)

Module Orchestrator.

Section Orchestrator.

(** What running the command at index [i] in a subprocess of its own yields:
    its raw content and its metadata.  A timeout or a failure to start is such
    an outcome too, with a non-zero exit code. *)
Variable exec : nat -> pystr -> pystr * CmdOutputMetadata.t.

(** Modelled from the spec: the orchestrator that runs a
    [ParallelCmdRunAction] is not among the sources.  Following sections 4.3
    and 5 of the specification it keeps the commands not yet admitted, in
    submission order ([pending]), the commands that execute ([running]), and
    one result slot per submitted command ([slots]), addressed by the index of
    the command in the submitted list. *)
Record state : Type := mk {
  pending : list nat;
  running : list nat;
  slots : list (option ParallelCmdResult.t)
}.

(** Modelled from the spec: an empty command list and a [max_concurrency]
    below 1 are rejected before anything is dispatched; otherwise every
    command waits and every slot is empty. *)
Definition start (commands : list pystr) (max_concurrency : Z) : result state :=
  if (max_concurrency <? 1) || bool_decide (commands = []) then Raise ValueError
  else Ok (mk (seq 0 (length commands)) [] (replicate (length commands) None)).

Definition result_of (i : nat) (cmd : pystr) : ParallelCmdResult.t :=
  let '(content, md) := exec i cmd in ParallelCmdResult.mk cmd content md.

(** What can happen next: the first waiting command is admitted, or a running
    command terminates. *)
Inductive event : Set :=
  | Admit
  | Complete (i : nat).

(** Modelled from the spec: one transition of the orchestrator.  A command is
    admitted only while fewer than [max_concurrency] commands execute, and the
    commands are admitted in submission order; a command that terminates, in
    whatever order, writes its result to the slot of its own index. *)
Definition step (commands : list pystr) (max_concurrency : Z) (ev : event)
    (s : state) : option state :=
  match ev with
  | Admit =>
      match pending s with
      | i :: q =>
          if len (running s) <? max_concurrency
          then Some (mk q (running s ++ [i]) (slots s))
          else None
      | [] => None
      end
  | Complete i =>
      if bool_decide (i ∈ running s) then
        cmd ← commands !! i;
        Some (mk (pending s) (filter (fun j => j ≠ i) (running s))
                 (<[i := Some (result_of i cmd)]> (slots s)))
      else None
  end.

(** An execution: the events in the order they happen. *)
Fixpoint run (commands : list pystr) (max_concurrency : Z) (trace : list event)
    (s : state) : option state :=
  match trace with
  | [] => Some s
  | ev :: trace' =>
      s' ← step commands max_concurrency ev s;
      run commands max_concurrency trace' s'
  end.

(** Nothing waits and nothing executes. *)
Definition finished (s : state) : bool :=
  bool_decide (pending s = []) && bool_decide (running s = []).

(** Modelled from the spec: the result list handed to the caller is the
    content of the slots, in index order; there is none while a slot is
    empty. *)
Fixpoint collect_slots (sl : list (option ParallelCmdResult.t))
  : option (list ParallelCmdResult.t) :=
  match sl with
  | [] => Some []
  | o :: sl' => r ← o; rs ← collect_slots sl'; Some (r :: rs)
  end.

Definition results (s : state) : option (list ParallelCmdResult.t) :=
  collect_slots (slots s).

(** The execution that runs the commands one after the other. *)
Definition sequential (n : nat) : list event :=
  flat_map (fun i => [Admit; Complete i]) (seq 0 n).

(** What holds at every instant of an execution: no more than
    [max_concurrency] commands execute; there is one slot per command; and a
    command that neither waits nor executes has its result in its slot. *)
Definition inv (commands : list pystr) (max_concurrency : Z) (s : state) : Prop :=
  len (running s) <= max_concurrency
  /\ length (slots s) = length commands
  /\ (forall i cmd, commands !! i = Some cmd ->
        i ∈ pending s \/ i ∈ running s
        \/ slots s !! i = Some (Some (result_of i cmd))).

End Orchestrator.

End Orchestrator.

(** ** Vocabulary of the statements *)

(** A JSON text is written with apostrophes in place of its double quotes:
    [pyq "{'pid': '1'}"] is the text [{"pid": "1"}]. *)
Definition pyq (s : string) : pystr :=
  (fun c => if (c =? 39)%N then 34%N else c) <$> py s.

(** The newline character. *)
Definition NL : pystr := [10%N].

(** [json.loads(s)] returns a value. *)
Definition parses_as_json (s : pystr) : Prop :=
  exists v, Json.loads s = Ok v.

#[export] Instance parses_as_json_dec s : Decision (parses_as_json s).
Proof.
  unfold parses_as_json.
  destruct (Json.loads s) as [v|e].
  - left. by exists v.
  - right. intros [v Hv]. discriminate.
Defined.

(** Position [p] of [text] is at the start of a line: it is the first
    position, or the character before it is a newline. *)
Definition line_start (text : pystr) (p : nat) : Prop :=
  p = O \/ (exists q, p = S q /\ text !! q = Some 10%N).

(** The literal [lit] occurs in [text] at position [p]. *)
Definition occurs_at (lit text : pystr) (p : nat) : Prop :=
  lit `prefix_of` drop p text.

(** [m] is a sentinel-delimited region of [text]: the BEGIN literal stands at
    [m.start()], at the start of a line; group 1 is what follows it up to the
    first END literal after it; and [m.end()] is just after that END
    literal. *)
Definition region (text : pystr) (m : Match) : Prop :=
  line_start text (m_start m)
  /\ (exists post,
        drop (m_start m) text
          = BEGIN_LITERAL ++ m_group1 m ++ END_LITERAL ++ post)
  /\ (forall j, (j < length (m_group1 m))%nat ->
        ~ occurs_at END_LITERAL text (m_start m + length BEGIN_LITERAL + j))
  /\ m_end m = (m_start m + length BEGIN_LITERAL + length (m_group1 m)
                + length END_LITERAL)%nat.

(** A match lies before another one. *)
Definition before (a b : Match) : Prop := (m_end a <= m_start b)%nat.


(** A metadata block as the shell prints it: the BEGIN line, the content, and
    the END line. *)
Definition ps1_block (content : pystr) : pystr :=
  BEGIN_LITERAL ++ NL ++ content ++ NL ++ END_LITERAL ++ NL.

(** A capture with three blocks, the second of which is not JSON, and the
    three regions the pattern finds in it. *)
Definition block1 : pystr :=
  pyq "{'pid': '101', 'exit_code': '0', 'working_dir': '/tmp'}".
Definition block3 : pystr := pyq "{'pid': '103', 'exit_code': '0'}".


Definition region1 : Match := mkMatch 5 87 (NL ++ block1 ++ NL).

(** A capture whose first block does not start its line, and the one region
    the pattern finds in it. *)
Definition mid_line_block : pystr :=
  py "echo " ++ ps1_block block1 ++ ps1_block block3.

Definition mid_line_region : Match := mkMatch 88 147 (NL ++ block3 ++ NL).

(** A block whose exit code is the text [inf], and the region it makes. *)
Definition inf_block : pystr :=
  ps1_block (pyq "{'pid': '104', 'exit_code': 'inf'}").

Definition inf_region : Match :=
  mkMatch 0 61 (NL ++ pyq "{'pid': '104', 'exit_code': 'inf'}" ++ NL).

(** The content a constructor stores when it truncates unless [hidden]. *)
Definition stored_content (hidden : bool) (content : pystr) : pystr :=
  if hidden then content
  else Truncator._maybe_truncate content Truncator.MAX_CMD_OUTPUT_SIZE.


(** The value a numeric field of a decoded block gets when the constructor is
    reached: the converted value, and -1 where the field is absent or its
    conversion fails. *)
Definition coerced (v : option pyobj) : Z :=
  match v with
  | None => -1
  | Some v =>
      match CmdOutputMetadata.int_float_str v with
      | Ok n => n
      | Raise _ => -1
      end
  end.

(** A batch for the examples: three commands, an outcome for each (its own
    text as content, exit code 0, process id 100 + i), and an execution with
    two workers in which the commands terminate in the order 1, 2, 0. *)
Definition demo_commands : list pystr :=
  [py "echo A"; py "echo B"; py "sleep 2 && echo C"].

Definition demo_exec (i : nat) (cmd : pystr) : pystr * CmdOutputMetadata.t :=
  (cmd, set_pid (100 + Z.of_nat i) (set_exit_code 0 CmdOutputMetadata.default)).

Definition demo_trace : list Orchestrator.event :=
  [Orchestrator.Admit; Orchestrator.Admit; Orchestrator.Complete 1;
   Orchestrator.Admit; Orchestrator.Complete 2; Orchestrator.Complete 0].





(** The block the shell prints for the prompt when nothing is expanded: the
    JSON of the placeholders between the two markers. *)
Definition unexpanded_region : Match :=
  mkMatch 1 204
    (NL ++ Json.dumps_indent2 CmdOutputMetadata.PS1_PLACEHOLDERS ++ NL).

Definition unexpanded_block : pystr :=
  CMD_OUTPUT_PS1_BEGIN ++ Json.dumps_indent2 CmdOutputMetadata.PS1_PLACEHOLDERS
  ++ CMD_OUTPUT_PS1_END ++ NL.

(** A code point that is a character of a well-formed text: below 0x110000
    and not a surrogate. *)
Definition scalar_value (c : codepoint) : bool :=
  ((c <? 55296) || ((57343 <? c) && (c <? 1114112)))%N.

(** The JSON of a block, written the way [to_ps1_prompt] writes its
    template, with values in place of the placeholders: the process id and
    the exit code as numerals, the four names as they are. *)
Definition metadata_json (pid exit_code : Z) (username hostname working_dir
    py_interpreter_path : pystr) : pystr :=
  Json.dumps_indent2
    [ (py "pid", Num.str_of_int pid);
      (py "exit_code", Num.str_of_int exit_code);
      (py "username", username);
      (py "hostname", hostname);
      (py "working_dir", working_dir);
      (py "py_interpreter_path", py_interpreter_path) ].

(** What a prompt of the shape of [to_ps1_prompt] prints: the BEGIN marker,
    the JSON, the END marker and a newline. *)
Definition printed_block (json : pystr) : pystr :=
  CMD_OUTPUT_PS1_BEGIN ++ json ++ CMD_OUTPUT_PS1_END ++ NL.


(** * Properties *)

(** ** Output truncation *)

Section TruncatorFacts.

Import Truncator.

Lemma len_app {A} (s t : list A) : len (s ++ t) = len s + len t.
Proof. unfold len. rewrite length_app. lia. Qed.

Lemma marker_length : len TRUNCATION_MARKER = 47.
Proof. reflexivity. Qed.

(** A slice [s[:k]] with [0 <= k <= len(s)] holds the first [k] characters. *)
Lemma slice_to_prefix {A} (s : list A) (k : Z) :
  0 <= k <= len s ->
  slice_to s k = take (Z.to_nat k) s /\ len (slice_to s k) = k.
Proof.
  intros Hk. unfold slice_to.
  destruct (Z.leb_spec 0 k); [|lia].
  split; [done|]. unfold len in *. rewrite length_take. lia.
Qed.

(** A slice [s[-k:]] with [0 < k <= len(s)] holds the last [k] characters. *)
Lemma slice_from_suffix {A} (s : list A) (k : Z) :
  0 < k <= len s ->
  slice_from s (- k) = drop (length s - Z.to_nat k) s
  /\ len (slice_from s (- k)) = k.
Proof.
  intros Hk. unfold slice_from.
  destruct (Z.leb_spec 0 (- k)); [lia|].
  assert (Z.to_nat (len s + - k) = (length s - Z.to_nat k)%nat) as ->
    by (unfold len in *; lia).
  split; [done|]. unfold len in *. rewrite length_drop. lia.
Qed.

(** [s[-0:]] is the whole of [s]. *)
Lemma slice_from_zero {A} (s : list A) : slice_from s (- 0) = s.
Proof. reflexivity. Qed.

(** C8: for every content whose length is at most the size limit,
    [_maybe_truncate] returns the content unchanged. *)
Theorem maybe_truncate_identity (content : pystr) (max_size : Z) :
  len content <= max_size ->
  _maybe_truncate content max_size = content.
Proof.
  intros Hle. unfold _maybe_truncate.
  destruct (Z.leb_spec (len content) max_size); [done | lia].
Qed.

Lemma maybe_truncate_identity_witness :
  len (py "total 0") <= MAX_CMD_OUTPUT_SIZE
  /\ _maybe_truncate (py "total 0") MAX_CMD_OUTPUT_SIZE = py "total 0".
Proof.
  assert (H : len (py "total 0") <= MAX_CMD_OUTPUT_SIZE) by (vm_compute; discriminate).
  split; [exact H | exact (maybe_truncate_identity _ _ H)].
Defined.

(** What [_maybe_truncate] returns for a content over the limit, whatever the
    limit: the two slices around the marker. *)
Lemma maybe_truncate_long (content : pystr) (max_size : Z) :
  max_size < len content ->
  _maybe_truncate content max_size =
    slice_to content (max_size / 2) ++ TRUNCATION_MARKER
      ++ slice_from content (- (max_size / 2)).
Proof.
  intros Hlt. unfold _maybe_truncate.
  destruct (Z.leb_spec (len content) max_size); [lia | done].
Qed.

(** The shape and the length of a truncated content, for a limit of at least
    2 (so that the half is positive). *)
Lemma maybe_truncate_shape (content : pystr) (max_size : Z) :
  2 <= max_size ->
  max_size < len content ->
  let half := max_size / 2 in
  _maybe_truncate content max_size =
    take (Z.to_nat half) content ++ TRUNCATION_MARKER
      ++ drop (length content - Z.to_nat half) content
  /\ len (take (Z.to_nat half) content) = half
  /\ len (drop (length content - Z.to_nat half) content) = half
  /\ len (_maybe_truncate content max_size) = 2 * half + len TRUNCATION_MARKER
  /\ (Z.even max_size = true ->
      len (_maybe_truncate content max_size) = max_size + len TRUNCATION_MARKER).
Proof.
  intros H2 Hlt half.
  assert (Hhalf : 0 < half <= len content).
  { subst half. split; [apply Z.div_str_pos; lia|].
    pose proof (Z.div_le_upper_bound max_size 2 max_size); lia. }
  destruct (slice_to_prefix content half) as [Hp Hpl]; [lia|].
  destruct (slice_from_suffix content half) as [Hs Hsl]; [lia|].
  assert (Hlen : len (_maybe_truncate content max_size)
                 = 2 * half + len TRUNCATION_MARKER).
  { rewrite maybe_truncate_long by done. fold half.
    rewrite !len_app, Hpl, Hsl. lia. }
  rewrite maybe_truncate_long by done. fold half.
  rewrite <- Hp, <- Hs, Hpl, Hsl.
  rewrite maybe_truncate_long in Hlen by done. fold half in Hlen.
  repeat split; try done.
  intros Hev. rewrite Hlen.
  apply Z.even_spec in Hev as [q Hq]. subst half. rewrite Hq.
  rewrite (Z.mul_comm 2 q), Z.div_mul by lia. lia.
Qed.

(** C2, as the code has it: for a size limit of at least 2 and a content
    strictly longer than the limit, [_maybe_truncate] returns the first
    [max_size // 2] characters, the marker, and the last [max_size // 2]
    characters; the result has [2 * (max_size // 2) + len(marker)] characters,
    which is [max_size + len(marker)] when the limit is even. *)
Theorem maybe_truncate_head_marker_tail (content : pystr) (max_size : Z) :
  2 <= max_size ->
  max_size < len content ->
  let half := max_size / 2 in
  _maybe_truncate content max_size =
    take (Z.to_nat half) content ++ TRUNCATION_MARKER
      ++ drop (length content - Z.to_nat half) content
  /\ len (take (Z.to_nat half) content) = half
  /\ len (drop (length content - Z.to_nat half) content) = half
  /\ len (_maybe_truncate content max_size) = 2 * half + len TRUNCATION_MARKER
  /\ (Z.even max_size = true ->
      len (_maybe_truncate content max_size) = max_size + len TRUNCATION_MARKER).
Proof. exact (maybe_truncate_shape content max_size). Qed.

Lemma maybe_truncate_head_marker_tail_witness :
  2 <= 4 /\ 4 < len (py "0123456789")
  /\ _maybe_truncate (py "0123456789") 4
     = py "01" ++ TRUNCATION_MARKER ++ py "89"
  /\ len (_maybe_truncate (py "0123456789") 4) = 4 + len TRUNCATION_MARKER.
Proof.
  assert (H2 : 2 <= 4) by lia.
  assert (Hlt : 4 < len (py "0123456789")) by (vm_compute; reflexivity).
  destruct (maybe_truncate_head_marker_tail (py "0123456789") 4 H2 Hlt)
    as (Heq & _ & _ & _ & Hev).
  exact (conj H2 (conj Hlt (conj Heq (Hev eq_refl)))).
Defined.

(** C2 as stated fails for an odd limit: with a limit of 5 the result keeps
    2 + 2 characters of a 7-character content, so its length is
    [4 + len(marker)] and not [5 + len(marker)]. *)
Lemma maybe_truncate_odd_limit_length :
  5 < len (py "abcdefg")
  /\ _maybe_truncate (py "abcdefg") 5 = py "ab" ++ TRUNCATION_MARKER ++ py "fg"
  /\ len (_maybe_truncate (py "abcdefg") 5) <> 5 + len TRUNCATION_MARKER.
Proof. vm_compute. repeat split; discriminate. Qed.

(** With a limit of 0 or 1 the half is 0, and the slice [content[-0:]] is the
    whole content rather than its last 0 characters. *)
Lemma maybe_truncate_zero_half :
  _maybe_truncate (py "abc") 1 = TRUNCATION_MARKER ++ py "abc"
  /\ _maybe_truncate (py "abc") 0 = TRUNCATION_MARKER ++ py "abc".
Proof. split; reflexivity. Qed.

(** The default limit is even: a content over it comes back with exactly
    [MAX_CMD_OUTPUT_SIZE + len(marker)] characters. *)
Lemma maybe_truncate_default_length (content : pystr) :
  MAX_CMD_OUTPUT_SIZE < len content ->
  len (_maybe_truncate content MAX_CMD_OUTPUT_SIZE) = 30047.
Proof.
  intros Hlt.
  destruct (maybe_truncate_shape content MAX_CMD_OUTPUT_SIZE)
    as (_ & _ & _ & _ & Hev); [unfold MAX_CMD_OUTPUT_SIZE; lia | done |].
  rewrite Hev by reflexivity. reflexivity.
Qed.

End TruncatorFacts.

Section TruncationPaths.

Import Truncator.








End TruncationPaths.

(** ** Result records *)

Section ResultFacts.

(** C5: a batch is in error exactly when some member has a non-zero exit
    code, and succeeds exactly when every member has exit code 0; a single
    result (a batch member or a single-command observation) is in error
    exactly when its exit code is not 0, and succeeds exactly when it is not
    in error. *)
Theorem error_success_by_exit_code :
  (forall obs : ParallelCmdOutputObservation.t,
      (ParallelCmdOutputObservation.error obs = true <->
         exists r, r ∈ ParallelCmdOutputObservation.results obs
                   /\ ParallelCmdResult.exit_code r <> 0)
      /\ (ParallelCmdOutputObservation.success obs = true <->
            forall r, r ∈ ParallelCmdOutputObservation.results obs ->
                      ParallelCmdResult.exit_code r = 0))
  /\ (forall r : ParallelCmdResult.t,
        (ParallelCmdResult.error r = true <-> ParallelCmdResult.exit_code r <> 0)
        /\ (ParallelCmdResult.success r = true <-> ParallelCmdResult.error r = false))
  /\ (forall o : CmdOutputObservation.t,
        (CmdOutputObservation.error o = true <-> CmdOutputObservation.exit_code o <> 0)
        /\ (CmdOutputObservation.success o = true <-> CmdOutputObservation.error o = false)).
Proof.
  assert (Hr : forall r : ParallelCmdResult.t,
             ParallelCmdResult.error r = true <-> ParallelCmdResult.exit_code r <> 0).
  { intros r. unfold ParallelCmdResult.error.
    rewrite negb_true_iff, Z.eqb_neq. done. }
  assert (Hs : forall r : ParallelCmdResult.t,
             ParallelCmdResult.success r = true <-> ParallelCmdResult.exit_code r = 0).
  { intros r. unfold ParallelCmdResult.success, ParallelCmdResult.error.
    rewrite negb_involutive, Z.eqb_eq. done. }
  split; [|split].
  - intros obs. split.
    + unfold ParallelCmdOutputObservation.error. rewrite existsb_exists.
      split; intros (r & Hin & He); exists r.
      * apply list_elem_of_In in Hin. by rewrite <- Hr.
      * apply list_elem_of_In in Hin. by rewrite Hr.
    + unfold ParallelCmdOutputObservation.success. rewrite forallb_forall.
      split; intros H r Hin.
      * apply Hs, H. by apply list_elem_of_In.
      * apply Hs, H. by apply list_elem_of_In.
  - intros r. split; [apply Hr|].
    unfold ParallelCmdResult.success. apply negb_true_iff.
  - intros o. split.
    + unfold CmdOutputObservation.error. rewrite negb_true_iff, Z.eqb_neq. done.
    + unfold CmdOutputObservation.success. apply negb_true_iff.
Qed.

(** Among the sublists of [l] whose elements all satisfy [P], [filter P l] is
    the largest. *)
Lemma filter_greatest_sublist {A} (P : A -> Prop) `{!forall x, Decision (P x)}
    (l : list A) :
  filter P l `sublist_of` l
  /\ Forall P (filter P l)
  /\ (forall l', l' `sublist_of` l -> Forall P l' -> l' `sublist_of` filter P l).
Proof.
  split; [apply sublist_filter|]. split.
  - apply Forall_forall. intros x Hx. by apply list_elem_of_filter in Hx as [? _].
  - intros l' Hsub. induction Hsub as [|x l1 l2 Hsub IH|x l1 l2 Hsub IH]; intros Hall.
    + constructor.
    + apply Forall_cons in Hall as [Hx Hall].
      rewrite filter_cons_True by done. constructor. by apply IH.
    + rewrite filter_cons. destruct (decide (P x)); [constructor|]; by apply IH.
Qed.

(** C9: [get_results_by_exit_code] returns the members whose exit code is the
    given one, each as often as it occurs and in result order (it is the
    largest sublist of the results made of such members);
    [get_successful_results] is [get_results_by_exit_code 0]; and
    [get_failed_results] returns, in the same sense, the members whose exit
    code is not 0. *)
Theorem exit_code_filters (obs : ParallelCmdOutputObservation.t) (code : Z) :
  let results := ParallelCmdOutputObservation.results obs in
  let by_code := ParallelCmdOutputObservation.get_results_by_exit_code obs code in
  let failed := ParallelCmdOutputObservation.get_failed_results obs in
  (by_code `sublist_of` results
   /\ Forall (fun r => ParallelCmdResult.exit_code r = code) by_code
   /\ (forall l, l `sublist_of` results ->
         Forall (fun r => ParallelCmdResult.exit_code r = code) l ->
         l `sublist_of` by_code)
   /\ (forall r, r ∈ by_code <-> r ∈ results /\ ParallelCmdResult.exit_code r = code))
  /\ ParallelCmdOutputObservation.get_successful_results obs
     = ParallelCmdOutputObservation.get_results_by_exit_code obs 0
  /\ (failed `sublist_of` results
      /\ Forall (fun r => ParallelCmdResult.exit_code r <> 0) failed
      /\ (forall l, l `sublist_of` results ->
            Forall (fun r => ParallelCmdResult.exit_code r <> 0) l ->
            l `sublist_of` failed)
      /\ (forall r, r ∈ failed <-> r ∈ results /\ ParallelCmdResult.exit_code r <> 0)).
Proof.
  intros results by_code failed.
  subst by_code failed results.
  unfold ParallelCmdOutputObservation.get_results_by_exit_code,
         ParallelCmdOutputObservation.get_failed_results.
  split; [|split; [done|]].
  - destruct (filter_greatest_sublist
                (fun r => ParallelCmdResult.exit_code r = code)
                (ParallelCmdOutputObservation.results obs)) as (H1 & H2 & H3).
    do 3 (split; [done|]).
    intros r. rewrite list_elem_of_filter. tauto.
  - destruct (filter_greatest_sublist
                (fun r => ParallelCmdResult.exit_code r <> 0)
                (ParallelCmdOutputObservation.results obs)) as (H1 & H2 & H3).
    do 3 (split; [done|]).
    intros r. rewrite list_elem_of_filter. tauto.
Qed.

(** The scenario of the specification: of the two results of [exit 0] and
    [exit 1], the batch is in error and exactly the second one failed. *)
Example exit_0_exit_1 :
  let r0 := ParallelCmdResult.mk (py "exit 0") [] (set_exit_code 0 CmdOutputMetadata.default) in
  let r1 := ParallelCmdResult.mk (py "exit 1") [] (set_exit_code 1 CmdOutputMetadata.default) in
  let obs := ParallelCmdOutputObservation.mk [] [r0; r1] (py "run_parallel") false in
  ParallelCmdOutputObservation.error obs = true
  /\ ParallelCmdOutputObservation.success obs = false
  /\ ParallelCmdOutputObservation.get_failed_results obs = [r1]
  /\ ParallelCmdOutputObservation.get_successful_results obs = [r0].
Proof. repeat split. Qed.

End ResultFacts.

Section MappingFacts.

(** The constructor reads back what [model_dump] wrote. *)
Lemma init_model_dump (md : CmdOutputMetadata.t) :
  CmdOutputMetadata.init (CmdOutputMetadata.model_dump md) = Ok md.
Proof.
  destruct md as [ec p u h w i pre suf].
  destruct u, h, w, i; reflexivity.
Qed.

(** C6: for every batch member [r], [from_dict(to_dict(r))] is [r] again: the
    same command, the same content and the same metadata, field by field
    (exit_code, pid, username, hostname, working_dir, py_interpreter_path,
    prefix and suffix). *)
Theorem from_dict_to_dict (r : ParallelCmdResult.t) :
  ParallelCmdResult.from_dict (ParallelCmdResult.to_dict r) = Ok r.
Proof.
  destruct r as [command content md].
  unfold ParallelCmdResult.from_dict, ParallelCmdResult.to_dict.
  change (ParallelCmdResult.init command content
            (MetaDict (CmdOutputMetadata.model_dump md)) no_kwargs
          = Ok (ParallelCmdResult.mk command content md)).
  unfold ParallelCmdResult.init, metadata_of_arg.
  rewrite init_model_dump. reflexivity.
Qed.

End MappingFacts.

(** ** The scan for metadata blocks *)

Section ScanFacts.

Lemma strip_prefix_Some (p s r : pystr) :
  Str.strip_prefix p s = Some r <-> s = p ++ r.
Proof.
  revert s. induction p as [|a p IH]; intros s; simpl.
  - split; [by intros [= ->] | by intros ->].
  - destruct s as [|b s]; [split; intros; discriminate|].
    destruct (N.eqb_spec a b) as [->|Hne].
    + rewrite IH. split; [by intros -> | by intros [= ->]].
    + split; [discriminate | intros [= ? _]; done].
Qed.

Lemma startswith_prefix (p s : pystr) :
  Str.startswith p s = true <-> p `prefix_of` s.
Proof.
  revert s. induction p as [|a p IH]; intros s; simpl.
  - split; [intros _; apply prefix_nil | done].
  - destruct s as [|b s].
    + split; [discriminate | intros H; by apply prefix_nil_not in H].
    + rewrite andb_true_iff, N.eqb_eq, IH. split.
      * intros [-> H]. by apply prefix_cons.
      * intros H. split; [by eapply prefix_cons_inv_1 | by eapply prefix_cons_inv_2].
Qed.

(** [find] returns the first position where the literal occurs. *)
Lemma find_Some (p s : pystr) (k : nat) :
  Str.find p s = Some k <->
  p `prefix_of` drop k s /\ (k <= length s)%nat
  /\ forall j, (j < k)%nat -> ~ p `prefix_of` drop j s.
Proof.
  revert k. induction s as [|c s IH]; intros k.
  - simpl. destruct (Str.startswith p []) eqn:Hsw.
    + apply startswith_prefix in Hsw. split.
      * intros [= <-]. split; [done|]. split; [done|]. intros j Hj. lia.
      * intros (_ & Hk & _). simpl in Hk. f_equal. lia.
    + split; [discriminate|]. intros (Hp & _ & _).
      rewrite drop_nil in Hp. apply startswith_prefix in Hp. congruence.
  - cbn [Str.find]. destruct (Str.startswith p (c :: s)) eqn:Hsw.
    + apply startswith_prefix in Hsw. split.
      * intros [= <-]. split; [done|]. split; [simpl; lia|]. intros j Hj. lia.
      * intros (_ & _ & Hmin). destruct k as [|k]; [done|].
        destruct (Hmin O); [lia | done].
    + assert (Hn : ~ p `prefix_of` c :: s).
      { intros H. apply startswith_prefix in H. congruence. }
      destruct k as [|k].
      * split.
        -- destruct (Str.find p s); discriminate.
        -- intros (Hp & _ & _). done.
      * specialize (IH k). split.
        -- intros H. destruct (Str.find p s) as [k'|] eqn:Hf; [|discriminate].
           injection H as ->. apply proj1 in IH.
           destruct (IH eq_refl) as (Hp & Hk & Hmin).
           split; [done|]. split; [simpl; lia|].
           intros [|j] Hj; [done|]. apply Hmin. lia.
        -- intros (Hp & Hk & Hmin). apply proj2 in IH.
           rewrite IH; [done|]. split; [done|]. split; [simpl in Hk; lia|].
           intros j Hj. apply (Hmin (S j)). lia.
Qed.

Lemma END_LITERAL_length : length END_LITERAL = 12%nat.
Proof. reflexivity. Qed.

Lemma BEGIN_LITERAL_length : length BEGIN_LITERAL = 13%nat.
Proof. reflexivity. Qed.

(** The pattern matches at the head of [s] exactly when [s] starts with a
    block: the BEGIN literal, group 1, and the first END literal after it. *)
Lemma match_here_Some (s : pystr) (n : nat) (g : pystr) :
  Regex.match_here s = Some (n, g) <->
  (exists post, s = BEGIN_LITERAL ++ g ++ END_LITERAL ++ post)
  /\ (forall j, (j < length g)%nat ->
        ~ END_LITERAL `prefix_of` drop j (drop (length BEGIN_LITERAL) s))
  /\ n = (length BEGIN_LITERAL + length g + length END_LITERAL)%nat.
Proof.
  unfold Regex.match_here. split.
  - destruct (Str.strip_prefix BEGIN_LITERAL s) as [r|] eqn:Hb; [|discriminate].
    apply strip_prefix_Some in Hb as ->.
    destruct (Str.find END_LITERAL r) as [k|] eqn:Hf; [|discriminate].
    intros [= <- <-]. apply find_Some in Hf as ([post Hp] & Hk & Hmin).
    assert (Hlen : length (take k r) = k) by (rewrite length_take; lia).
    rewrite Hlen, drop_app_length. split; [|split; [exact Hmin | done]].
    exists post. rewrite <- Hp. by rewrite take_drop.
  - intros ([post ->] & Hmin & ->).
    assert (Hb : Str.strip_prefix BEGIN_LITERAL
                   (BEGIN_LITERAL ++ g ++ END_LITERAL ++ post)
                 = Some (g ++ END_LITERAL ++ post))
      by (by apply strip_prefix_Some).
    rewrite Hb. rewrite drop_app_length in Hmin.
    assert (Hf : Str.find END_LITERAL (g ++ END_LITERAL ++ post) = Some (length g)).
    { apply find_Some. rewrite drop_app_length.
      split; [by apply prefix_app_r|]. split; [rewrite length_app; lia | done]. }
    rewrite Hf. by rewrite take_app_length.
Qed.

Lemma match_here_length (s : pystr) (n : nat) (g : pystr) :
  Regex.match_here s = Some (n, g) -> (25 <= n)%nat.
Proof.
  intros H. apply match_here_Some in H as (_ & _ & ->).
  rewrite BEGIN_LITERAL_length, END_LITERAL_length. lia.
Qed.

(** The text read so far, [pre], decides whether the next position starts a
    line. *)
Lemma line_start_snoc (pre : pystr) (c : codepoint) (s : pystr) :
  (c =? 10)%N = true <-> line_start ((pre ++ [c]) ++ s) (length (pre ++ [c])).
Proof.
  assert (Hl : ((pre ++ [c]) ++ s) !! length pre = Some c).
  { rewrite <- app_assoc. apply list_lookup_middle. done. }
  rewrite N.eqb_eq, length_app, Nat.add_1_r. unfold line_start. split.
  - intros ->. right. exists (length pre). split; [lia | done].
  - intros [H | (q & Hq & Hq')]; [lia|].
    assert (q = length pre) as -> by lia. congruence.
Qed.

Lemma region_here (pre s : pystr) (n : nat) (g : pystr) :
  line_start (pre ++ s) (length pre) ->
  Regex.match_here s = Some (n, g) ->
  region (pre ++ s) (mkMatch (length pre) (length pre + n) g).
Proof.
  intros Hls Hm. apply match_here_Some in Hm as (Hpost & Hmin & ->).
  unfold region, occurs_at. cbn [m_start m_end m_group1]. rewrite drop_app_length.
  split; [done|]. split; [done|]. split; [|lia].
  intros j Hj. specialize (Hmin j Hj).
  rewrite drop_drop in Hmin.
  replace (length pre + length BEGIN_LITERAL + j)%nat
    with (length pre + (length BEGIN_LITERAL + j))%nat by lia.
  by rewrite <- drop_drop, drop_app_length.
Qed.

Lemma region_here_inv (pre s : pystr) (m : Match) :
  region (pre ++ s) m -> m_start m = length pre ->
  line_start (pre ++ s) (length pre)
  /\ Regex.match_here s = Some ((m_end m - length pre)%nat, m_group1 m).
Proof.
  intros (Hls & Hpost & Hmin & Hend) Hst. rewrite Hst in *.
  rewrite drop_app_length in Hpost. split; [done|].
  apply match_here_Some. split; [done|]. split; [|lia].
  intros j Hj Hp. apply (Hmin j Hj). unfold occurs_at.
  replace (length pre + length BEGIN_LITERAL + j)%nat
    with (length pre + (length BEGIN_LITERAL + j))%nat by lia.
  rewrite <- drop_drop, drop_app_length. by rewrite drop_drop in Hp.
Qed.

(** A region starts inside the text. *)
Lemma region_start_lt (text : pystr) (m : Match) :
  region text m -> (m_start m < length text)%nat.
Proof.
  intros (_ & [post Hpost] & _ & _).
  destruct (decide (m_start m < length text)%nat) as [|Hge]; [done|].
  rewrite drop_ge in Hpost by lia. discriminate.
Qed.

(** Every match of the scan starts at or after the position the scan is at,
    and after what is left of the previous match. *)
Lemma finditer_from_start (s : pystr) (pos : nat) (bol : bool) (skip : nat)
    (m : Match) :
  m ∈ Regex.finditer_from s pos bol skip -> (pos + skip <= m_start m)%nat.
Proof.
  revert pos bol skip. induction s as [|c s IH]; intros pos bol skip; simpl.
  - intros H. by apply elem_of_nil in H.
  - destruct skip as [|k].
    + destruct (if bol then Regex.match_here (c :: s) else None)
        as [[n g]|] eqn:Hm.
      * intros [->|H]%elem_of_cons; [simpl; lia|]. apply IH in H. lia.
      * intros H. apply IH in H. lia.
    + intros H. apply IH in H. lia.
Qed.

Lemma finditer_from_sorted (s : pystr) (pos : nat) (bol : bool) (skip : nat) :
  StronglySorted before (Regex.finditer_from s pos bol skip).
Proof.
  revert pos bol skip. induction s as [|c s IH]; intros pos bol skip; simpl.
  - constructor.
  - destruct skip as [|k]; [|apply IH].
    destruct (if bol then Regex.match_here (c :: s) else None)
      as [[n g]|] eqn:Hm; [|apply IH].
    constructor; [apply IH|].
    apply Forall_forall. intros m Hin. apply finditer_from_start in Hin.
    assert (25 <= n)%nat.
    { destruct bol; [by eapply match_here_length | discriminate]. }
    unfold before. simpl. lia.
Qed.

(** Soundness of the scan: every match is a region of the text. *)
Lemma finditer_from_sound (pre s : pystr) (bol : bool) (skip : nat) (m : Match) :
  (bol = true <-> line_start (pre ++ s) (length pre)) ->
  m ∈ Regex.finditer_from s (length pre) bol skip ->
  region (pre ++ s) m.
Proof.
  revert pre bol skip. induction s as [|c s IH]; intros pre bol skip Hbol; simpl.
  - intros H. by apply elem_of_nil in H.
  - assert (Hnext : forall k,
               m ∈ Regex.finditer_from s (S (length pre)) (c =? 10)%N k ->
               region (pre ++ c :: s) m).
    { intros k H. rewrite cons_middle, app_assoc.
      apply (IH (pre ++ [c]) (c =? 10)%N k); [apply line_start_snoc|].
      by rewrite length_app, Nat.add_1_r. }
    destruct skip as [|k]; [|apply Hnext].
    destruct (if bol then Regex.match_here (c :: s) else None)
      as [[n g]|] eqn:Hm; [|apply Hnext].
    intros [->|H]%elem_of_cons; [|by eapply Hnext].
    destruct bol; [|discriminate].
    apply region_here; [by apply Hbol | done].
Qed.

(** Completeness of the scan: a region that starts at or after the position
    the scan is at is a match, unless it starts inside a match. *)
Lemma finditer_from_complete (pre s : pystr) (bol : bool) (skip : nat)
    (m' : Match) :
  (bol = true <-> line_start (pre ++ s) (length pre)) ->
  region (pre ++ s) m' ->
  (length pre + skip <= m_start m')%nat ->
  m' ∈ Regex.finditer_from s (length pre) bol skip
  \/ exists m, m ∈ Regex.finditer_from s (length pre) bol skip
               /\ (m_start m < m_start m' < m_end m)%nat.
Proof.
  revert pre bol skip. induction s as [|c s IH]; intros pre bol skip Hbol Hr Hge.
  - apply region_start_lt in Hr. rewrite length_app in Hr. simpl in Hr. lia.
  - assert (Hnext : forall k,
               (S (length pre) + k <= m_start m')%nat ->
               m' ∈ Regex.finditer_from s (S (length pre)) (c =? 10)%N k
               \/ exists m, m ∈ Regex.finditer_from s (S (length pre)) (c =? 10)%N k
                            /\ (m_start m < m_start m' < m_end m)%nat).
    { intros k Hk.
      replace (S (length pre)) with (length (pre ++ [c]))
        by (rewrite length_app; simpl; lia).
      apply IH; [apply line_start_snoc | |].
      - by rewrite <- app_assoc.
      - rewrite length_app. simpl. lia. }
    simpl. destruct skip as [|k]; [|apply Hnext; lia].
    destruct (decide (m_start m' = length pre)) as [Heq|Hne].
    + destruct (region_here_inv _ _ _ Hr Heq) as [Hls Hm].
      apply Hbol in Hls as ->. rewrite Hm. left. apply elem_of_cons. left.
      destruct Hr as (_ & _ & _ & Hend). destruct m' as [a b g]; simpl in *.
      f_equal; lia.
    + destruct (if bol then Regex.match_here (c :: s) else None)
        as [[n g]|] eqn:Hm.
      * destruct (decide (m_start m' < length pre + n)%nat) as [Hin|Hout].
        -- right. exists (mkMatch (length pre) (length pre + n) g).
           split; [apply elem_of_cons; by left | simpl; lia].
        -- destruct (Hnext (n - 1)%nat) as [H|(m & H & Hlt)]; [lia | |].
           ++ left. apply elem_of_cons. by right.
           ++ right. exists m. split; [apply elem_of_cons; by right | done].
      * apply Hnext. lia.
Qed.

Lemma loads_raises (s : pystr) (e : exn) :
  Json.loads s = Raise e -> e = JSONDecodeError.
Proof. unfold Json.loads. destruct (Json.decode s); [discriminate | by intros [= <-]]. Qed.

(** The loop of [matches_ps1_metadata] keeps the matches whose stripped
    group 1 is JSON, in order, and never raises. *)
Lemma matches_loop_filter (ms matches : list Match) :
  CmdOutputMetadata.matches_loop ms matches
  = Ok (matches
        ++ filter (fun m => parses_as_json (Str.strip (m_group1 m))) ms).
Proof.
  revert matches. induction ms as [|m ms IH]; intros matches; simpl.
  - by rewrite app_nil_r.
  - rewrite filter_cons. destruct (decide (parses_as_json _)) as [[v Hv]|Hno].
    + rewrite Hv. simpl. rewrite IH. by rewrite <- app_assoc.
    + destruct (Json.loads (Str.strip (m_group1 m))) as [v|e] eqn:Hl.
      * destruct Hno. by exists v.
      * apply loads_raises in Hl as ->. simpl. apply IH.
Qed.


(** The scan of a whole text: its matches are regions of the text, they come
    in text order without overlap, and every region of the text is a match
    unless it starts inside a match. *)
Lemma finditer_regions (text : pystr) :
  (forall m, m ∈ Regex.finditer text -> region text m)
  /\ StronglySorted before (Regex.finditer text)
  /\ (forall m, region text m ->
        m ∈ Regex.finditer text
        \/ exists m0, m0 ∈ Regex.finditer text
                      /\ (m_start m0 < m_start m < m_end m0)%nat).
Proof.
  assert (Hbol : true = true <-> line_start ([] ++ text) (length (@nil N))).
  { split; [intros _; by left | done]. }
  split; [|split].
  - intros m Hm. by apply (finditer_from_sound [] text true 0 m Hbol).
  - apply finditer_from_sorted.
  - intros m Hr.
    apply (finditer_from_complete [] text true 0 m Hbol Hr). simpl. lia.
Qed.

Lemma sorted_before_cases (l : list Match) (m m0 : Match) :
  StronglySorted before l -> m ∈ l -> m0 ∈ l ->
  m = m0 \/ before m m0 \/ before m0 m.
Proof.
  induction 1 as [|x l Hl IH Hx]; intros Hm Hm0.
  - by apply elem_of_nil in Hm.
  - rewrite Forall_forall in Hx.
    apply elem_of_cons in Hm as [-> | Hm], Hm0 as [-> | Hm0]; auto.
Qed.


Lemma matches_ps1_metadata_filter (text : pystr) :
  CmdOutputMetadata.matches_ps1_metadata text
  = Ok (filter (fun m => parses_as_json (Str.strip (m_group1 m)))
          (Regex.finditer text)).
Proof. unfold CmdOutputMetadata.matches_ps1_metadata. by rewrite matches_loop_filter. Qed.


(** What the method returns, for the statements below. *)
Lemma matches_ps1_metadata_inv (text : pystr) (ms : list Match) (m : Match) :
  CmdOutputMetadata.matches_ps1_metadata text = Ok ms ->
  m ∈ ms ->
  region text m /\ parses_as_json (Str.strip (m_group1 m)).
Proof.
  rewrite matches_ps1_metadata_filter. intros [= <-] [Hj Hin]%list_elem_of_filter.
  split; [|done]. by apply finditer_regions.
Qed.

(** C10: every match [matches_ps1_metadata] returns has its BEGIN literal at
    the start of a line; so no returned match starts just after a character
    that is not a newline, whatever the content of the block there. *)
Theorem matches_start_a_line (text : pystr) (ms : list Match) :
  CmdOutputMetadata.matches_ps1_metadata text = Ok ms ->
  (forall m, m ∈ ms ->
     occurs_at BEGIN_LITERAL text (m_start m) /\ line_start text (m_start m))
  /\ (forall p c, text !! p = Some c -> c <> 10%N ->
        forall m, m ∈ ms -> m_start m <> S p).
Proof.
  intros Hms. split.
  - intros m Hin.
    destruct (matches_ps1_metadata_inv text ms m Hms Hin)
      as [(Hls & [post Hpost] & _ & _) _].
    split; [|done]. unfold occurs_at. rewrite Hpost. by apply prefix_app_r.
  - intros p c Hp Hc m Hin Hst.
    destruct (matches_ps1_metadata_inv text ms m Hms Hin) as [(Hls & _) _].
    destruct Hls as [H0 | (q & Hq & Hnl)]; [lia|].
    assert (q = p) as -> by lia. congruence.
Qed.

(** In [mid_line_block] the first block follows [echo ] on its line and the
    second one starts a line: only the second is returned, although the
    content of the first is JSON. *)
Lemma matches_start_a_line_witness :
  CmdOutputMetadata.matches_ps1_metadata mid_line_block = Ok [mid_line_region]
  /\ occurs_at BEGIN_LITERAL mid_line_block 5
  /\ parses_as_json (Str.strip (NL ++ block1 ++ NL))
  /\ (forall m, m ∈ [mid_line_region] -> m_start m <> 5%nat).
Proof.
  assert (Hms : CmdOutputMetadata.matches_ps1_metadata mid_line_block
                = Ok [mid_line_region]) by (vm_compute; reflexivity).
  split; [exact Hms|].
  split; [by eexists|].
  split; [eexists; vm_compute; reflexivity|].
  exact (proj2 (matches_start_a_line mid_line_block [mid_line_region] Hms)
           4%nat 32%N eq_refl ltac:(discriminate)).
Defined.

End ScanFacts.

(** ** Decoding a metadata block *)

Section DecodeFacts.




(** The conversion [int(float(str(v)))] on the values of the specification:
    numerals are read through a float, a text that is no numeral is a
    [ValueError], and so is a NaN; an infinity is an [OverflowError]. *)
Lemma int_float_str_examples :
  CmdOutputMetadata.int_float_str (PStr (py "0")) = Ok 0
  /\ CmdOutputMetadata.int_float_str (PStr (py "12.0")) = Ok 12
  /\ CmdOutputMetadata.int_float_str (PStr (py " 130 ")) = Ok 130
  /\ CmdOutputMetadata.int_float_str (PStr (py "-1.9")) = Ok (-1)
  /\ CmdOutputMetadata.int_float_str (PInt 127) = Ok 127
  /\ CmdOutputMetadata.int_float_str (PStr (py "N/A")) = Raise ValueError
  /\ CmdOutputMetadata.int_float_str (PStr []) = Raise ValueError
  /\ CmdOutputMetadata.int_float_str PNone = Raise ValueError
  /\ CmdOutputMetadata.int_float_str (PStr (py "nan")) = Raise ValueError
  /\ CmdOutputMetadata.int_float_str (PStr (py "inf")) = Raise OverflowError
  /\ CmdOutputMetadata.int_float_str (PStr (py "-Infinity")) = Raise OverflowError
  /\ CmdOutputMetadata.int_float_str (PStr (py "1e999")) = Raise OverflowError.
Proof. repeat match goal with |- _ /\ _ => split end; vm_compute; reflexivity. Qed.

(** The conversion raises nothing but a [ValueError] or an
    [OverflowError]. *)
Lemma float_of_str_raises (s : pystr) (e : exn) :
  Num.float_of_str s = Raise e -> e = ValueError.
Proof.
  unfold Num.float_of_str.
  destruct (Num.drop_underscores _ _) as [t|]; [|by intros [= <-]].
  cbv zeta.
  destruct (match Str.strip_with _ t with [] => _ | _ => _ end) as [neg body].
  destruct (_ || _); [discriminate|].
  destruct (pystr_eqb _ _); [discriminate|].
  unfold Num.parse_decimal.
  destruct (Num.span_digits body) as [ip s1].
  destruct (match s1 with [] => _ | _ => _ end) as [fp s2].
  destruct (ip ++ fp); [by intros [= <-]|].
  destruct (Num.parse_exponent s2) as [ex s3].
  destruct s3; [discriminate | by intros [= <-]].
Qed.

Lemma int_float_str_raises (v : pyobj) (e : exn) :
  CmdOutputMetadata.int_float_str v = Raise e ->
  e = ValueError \/ e = OverflowError.
Proof.
  unfold CmdOutputMetadata.int_float_str.
  destruct (CmdOutputMetadata.float_of_str_of v) as [x|e'] eqn:Hf; simpl.
  - destruct x; simpl; [discriminate | intros [= <-] | intros [= <-]]; auto.
  - intros [= <-]. left.
    destruct v; simpl in Hf;
      first [ discriminate Hf
            | by injection Hf
            | by eapply float_of_str_raises ].
Qed.

(** What one of the two conversion blocks does to [processed]. *)
Lemma convert_field_spec (k : string) (metadata processed : pydict) :
  CmdOutputMetadata.convert_field k metadata processed =
  match dict_get (py k) metadata with
  | None => Ok processed
  | Some v =>
      match CmdOutputMetadata.int_float_str v with
      | Ok n => Ok (dict_set (py k) (PInt n) processed)
      | Raise ValueError => Ok (dict_set (py k) (PInt (-1)) processed)
      | Raise _ => Raise OverflowError
      end
  end.
Proof.
  unfold CmdOutputMetadata.convert_field.
  destruct (dict_get (py k) metadata) as [v|]; [|done].
  destruct (CmdOutputMetadata.int_float_str v) as [n|e] eqn:Hv; [done|].
  apply int_float_str_raises in Hv as [-> | ->]; reflexivity.
Qed.



(** A block whose [exit_code] converts to an infinity makes
    [from_ps1_match] raise. *)
Lemma from_ps1_match_overflow (m : Match) (d : pydict) (v : pyobj) :
  Json.loads (m_group1 m) = Ok (PDict d) ->
  dict_get (py "exit_code") d = Some v ->
  CmdOutputMetadata.int_float_str v = Raise OverflowError ->
  CmdOutputMetadata.from_ps1_match m = Raise OverflowError.
Proof.
  intros Hd He Hv. unfold CmdOutputMetadata.from_ps1_match. rewrite Hd. simpl.
  assert (He2 : forall p1, CmdOutputMetadata.convert_field "exit_code" d p1
                           = Raise OverflowError).
  { intros p1. by rewrite convert_field_spec, He, Hv. }
  rewrite convert_field_spec.
  destruct (dict_get (py "pid") d) as [w|]; simpl; [|by rewrite He2].
  destruct (CmdOutputMetadata.int_float_str w) as [n|[]]; simpl;
    by rewrite ?He2.
Qed.

(** The blocks of [three_blocks] that are JSON decode to their fields. *)
Example from_ps1_match_region1 :
  CmdOutputMetadata.from_ps1_match region1
  = Ok (CmdOutputMetadata.mk 0 101 None None (Some (py "/tmp")) None [] []).
Proof. vm_compute. reflexivity. Qed.

(** An exit code that is no numeral becomes -1. *)
Example from_ps1_match_not_a_number :
  CmdOutputMetadata.from_ps1_match
    (mkMatch 0 0 (pyq "{'pid': '12.0', 'exit_code': 'N/A'}"))
  = Ok (CmdOutputMetadata.mk (-1) 12 None None None None [] []).
Proof. vm_compute. reflexivity. Qed.

(** C4 at the input where the code departs from it: the block of
    [inf_block] is a well-formed region with JSON content, so
    [matches_ps1_metadata] returns it; its [exit_code] is the text [inf],
    which [float] accepts and [int] rejects with an [OverflowError]; the
    handler catches [ValueError] and [TypeError] only, and [from_ps1_match]
    raises instead of setting the field to -1. *)
Theorem from_ps1_match_inf_exit_code :
  CmdOutputMetadata.matches_ps1_metadata inf_block = Ok [inf_region]
  /\ Json.loads (m_group1 inf_region)
     = Ok (PDict [(py "pid", PStr (py "104")); (py "exit_code", PStr (py "inf"))])
  /\ CmdOutputMetadata.int_float_str (PStr (py "inf")) = Raise OverflowError
  /\ CmdOutputMetadata.from_ps1_match inf_region = Raise OverflowError.
Proof. repeat split; vm_compute; reflexivity. Qed.

End DecodeFacts.

(** ** The parallel orchestrator *)

Section OrchestratorFacts.

Import Orchestrator.

Variable exec : nat -> pystr -> pystr * CmdOutputMetadata.t.
Variable commands : list pystr.
Variable max_concurrency : Z.

#[local] Abbreviation inv := (Orchestrator.inv exec commands max_concurrency).

Lemma inv_start (s0 : state) :
  start commands max_concurrency = Ok s0 -> inv s0.
Proof.
  unfold start. destruct (Z.ltb_spec max_concurrency 1); simpl; [discriminate|].
  case_bool_decide; [discriminate|]. intros [= <-]. split; [|split]; simpl.
  - unfold len. simpl. lia.
  - apply length_replicate.
  - intros i cmd Hi. left. apply elem_of_seq.
    apply lookup_lt_Some in Hi. lia.
Qed.

Lemma inv_step (ev : event) (s s' : state) :
  inv s -> step exec commands max_concurrency ev s = Some s' -> inv s'.
Proof.
  intros (Hrun & Hlen & Hslots). destruct ev as [|i]; simpl.
  - destruct (pending s) as [|i q] eqn:Hp; [discriminate|].
    destruct (Z.ltb_spec (len (running s)) max_concurrency); [|discriminate].
    intros [= <-]. split; [|split]; simpl.
    + unfold len in *. rewrite length_app. simpl. lia.
    + done.
    + intros j cmd Hj. destruct (Hslots j cmd Hj) as [Hin | [Hin | Hs]].
      * apply elem_of_cons in Hin as [-> | Hin].
        -- right. left. apply elem_of_app. right. by apply list_elem_of_singleton.
        -- by left.
      * right. left. apply elem_of_app. by left.
      * by right; right.
  - case_bool_decide as Hin; [|discriminate].
    destruct (commands !! i) as [cmd|] eqn:Hi; simpl; [|discriminate].
    intros [= <-]. split; [|split]; simpl.
    + pose proof (length_filter (fun j => j <> i) (running s)).
      unfold len in *. lia.
    + by rewrite length_insert.
    + intros j cmd' Hj. destruct (decide (j = i)) as [-> | Hne].
      * right. right. rewrite Hi in Hj. injection Hj as <-.
        apply list_lookup_insert_eq. rewrite Hlen. by eapply lookup_lt_Some.
      * destruct (Hslots j cmd' Hj) as [Hp | [Hr | Hs]].
        -- by left.
        -- right. left. by apply list_elem_of_filter.
        -- right. right. by rewrite list_lookup_insert_ne.
Qed.

Lemma inv_run (trace : list event) (s s' : state) :
  inv s -> run exec commands max_concurrency trace s = Some s' -> inv s'.
Proof.
  revert s. induction trace as [|ev trace IH]; intros s Hinv; simpl.
  - by intros [= <-].
  - destruct (step exec commands max_concurrency ev s) as [s1|] eqn:Hs;
      simpl; [|discriminate].
    apply IH. by eapply inv_step.
Qed.

(** Slots that hold the results [rs], one by one, are collected as [rs]. *)
Lemma collect_slots_full (sl : list (option ParallelCmdResult.t))
    (rs : list ParallelCmdResult.t) :
  length sl = length rs ->
  (forall i r, rs !! i = Some r -> sl !! i = Some (Some r)) ->
  collect_slots sl = Some rs.
Proof.
  revert rs. induction sl as [|o sl IH]; intros [|r rs] Hlen Hall;
    try discriminate; [done|].
  simpl. pose proof (Hall O r eq_refl) as Ho. injection Ho as ->. simpl.
  rewrite (IH rs); [done | by injection Hlen |].
  intros i r' Hi. apply (Hall (S i) r' Hi).
Qed.

Lemma inv_finished (s : state) :
  inv s -> finished s = true ->
  results s = Some (imap (result_of exec) commands).
Proof.
  intros (_ & Hlen & Hslots) Hfin. unfold finished in Hfin.
  apply andb_true_iff in Hfin as [Hp Hr].
  apply bool_decide_eq_true in Hp, Hr.
  apply collect_slots_full; [by rewrite length_imap|].
  intros i r Hi. rewrite list_lookup_imap in Hi.
  destruct (commands !! i) as [cmd|] eqn:Hc; [|discriminate].
  injection Hi as <-.
  destruct (Hslots i cmd Hc) as [Hin | [Hin | Hs]]; [| |done].
  - rewrite Hp in Hin. by apply elem_of_nil in Hin.
  - rewrite Hr in Hin. by apply elem_of_nil in Hin.
Qed.

(** Running the commands one after the other, from a state where commands
    [a], [a+1], ... wait and nothing executes, ends with nothing left. *)
Lemma run_sequential (a n : nat) (sl : list (option ParallelCmdResult.t)) :
  1 <= max_concurrency ->
  (a + n <= length commands)%nat ->
  exists sl',
    run exec commands max_concurrency
      (flat_map (fun i => [Admit; Complete i]) (seq a n)) (mk (seq a n) [] sl)
    = Some (mk [] [] sl').
Proof.
  intros Hk. revert a sl. induction n as [|n IH]; intros a sl Hn.
  - by exists sl.
  - destruct (lookup_lt_is_Some_2 commands a) as [cmd Hc]; [lia|].
    cbn [seq flat_map app run step pending running slots].
    assert ((len (@nil nat) <? max_concurrency) = true) as ->
      by (apply Z.ltb_lt; unfold len; simpl; lia).
    cbn [mbind option_bind app pending running slots].
    rewrite bool_decide_eq_true_2 by (by apply list_elem_of_singleton).
    rewrite Hc. cbn [mbind option_bind].
    rewrite filter_cons_False, filter_nil by (intros H; by apply H).
    apply IH. lia.
Qed.

Lemma collect_records (rs : list ParallelCmdResult.t) :
  ParallelCmdOutputObservation.collect (inl <$> rs) = Ok rs.
Proof.
  induction rs as [|r rs IH]; [done|].
  rewrite fmap_cons. cbn [ParallelCmdOutputObservation.collect].
  by rewrite IH.
Qed.

(** The batch observation keeps the result list it is handed, in the same
    order. *)
Lemma batch_init_results (content : pystr) (rs : list ParallelCmdResult.t)
    (observation : pystr) (hidden : bool) :
  exists o,
    ParallelCmdOutputObservation.init content (Some (inl <$> rs)) observation
      hidden = Ok o
    /\ ParallelCmdOutputObservation.results o = rs.
Proof.
  unfold ParallelCmdOutputObservation.init. rewrite collect_records.
  eexists. split; [reflexivity | done].
Qed.

Lemma ordered_results_spec :
  length (imap (result_of exec) commands) = length commands
  /\ (forall i cmd, commands !! i = Some cmd ->
        imap (result_of exec) commands !! i = Some (result_of exec i cmd)
        /\ ParallelCmdResult.command (result_of exec i cmd) = cmd).
Proof.
  split; [apply length_imap|]. intros i cmd Hi. split.
  - by rewrite list_lookup_imap, Hi.
  - unfold result_of. by destruct (exec i cmd).
Qed.

End OrchestratorFacts.

Section OrchestratorClaim.

Import Orchestrator.

(** C7, on the orchestrator as the specification describes it: for a batch
    of at least one command and a [max_concurrency] of at least 1, the batch
    is accepted; at no instant of any execution do more than
    [max_concurrency] commands execute; whenever an execution has finished,
    in whatever order the commands terminated, the result list has one entry
    per submitted command and its entry at index [i] is the result of the
    command submitted at index [i]; such an execution exists; and the batch
    observation built from that list holds it unchanged. *)
Theorem orchestrator_bounded_and_ordered
    (exec : nat -> pystr -> pystr * CmdOutputMetadata.t)
    (commands : list pystr) (max_concurrency : Z) :
  commands <> [] ->
  1 <= max_concurrency ->
  exists s0,
    start commands max_concurrency = Ok s0
    /\ (forall trace s,
          run exec commands max_concurrency trace s0 = Some s ->
          len (running s) <= max_concurrency)
    /\ (forall trace s,
          run exec commands max_concurrency trace s0 = Some s ->
          finished s = true ->
          exists rs,
            results s = Some rs
            /\ length rs = length commands
            /\ (forall i cmd, commands !! i = Some cmd ->
                  rs !! i = Some (result_of exec i cmd)
                  /\ ParallelCmdResult.command (result_of exec i cmd) = cmd)
            /\ (forall content observation hidden,
                  exists o,
                    ParallelCmdOutputObservation.init content
                      (Some (inl <$> rs)) observation hidden = Ok o
                    /\ ParallelCmdOutputObservation.results o = rs))
    /\ (exists s,
          run exec commands max_concurrency (sequential (length commands)) s0
            = Some s
          /\ finished s = true).
Proof.
  intros Hne Hk.
  assert (Hs : start commands max_concurrency
               = Ok (mk (seq 0 (length commands)) []
                        (replicate (length commands) None))).
  { unfold start. destruct (Z.ltb_spec max_concurrency 1); [lia|].
    by rewrite bool_decide_eq_false_2. }
  eexists. split; [exact Hs|].
  pose proof (inv_start exec commands max_concurrency _ Hs) as Hinv.
  split; [|split].
  - intros trace s Hrun.
    by destruct (inv_run exec commands max_concurrency trace _ s Hinv Hrun).
  - intros trace s Hrun Hfin.
    pose proof (inv_run exec commands max_concurrency trace _ s Hinv Hrun) as Hs'.
    destruct (ordered_results_spec exec commands) as [Hlen Hnth].
    exists (imap (result_of exec) commands).
    split; [by apply (inv_finished exec commands max_concurrency)|].
    split; [done|]. split; [done|].
    intros content observation hidden. apply batch_init_results.
  - destruct (run_sequential exec commands max_concurrency 0 (length commands)
                (replicate (length commands) None) Hk) as [sl' Hrun]; [lia|].
    exists (mk [] [] sl'). split; [exact Hrun | done].
Qed.

End OrchestratorClaim.

Section OrchestratorExamples.

Import Orchestrator.

(** With two workers busy, a third command is not admitted. *)
Example third_command_waits :
  exists s0 s2,
    start demo_commands 2 = Ok s0
    /\ run demo_exec demo_commands 2 [Admit; Admit] s0 = Some s2
    /\ running s2 = [0; 1]%nat
    /\ step demo_exec demo_commands 2 Admit s2 = None.
Proof. eexists _, _. repeat split; reflexivity. Qed.

Lemma orchestrator_bounded_and_ordered_witness :
  demo_commands <> [] /\ 1 <= 2
  /\ exists s0 s,
       start demo_commands 2 = Ok s0
       /\ run demo_exec demo_commands 2 demo_trace s0 = Some s
       /\ len (running s) <= 2
       /\ finished s = true
       /\ ParallelCmdResult.command <$> default [] (results s) = demo_commands.
Proof.
  assert (H1 : demo_commands <> []) by discriminate.
  assert (H2 : 1 <= 2) by lia.
  split; [exact H1|]. split; [exact H2|].
  destruct (orchestrator_bounded_and_ordered demo_exec demo_commands 2 H1 H2)
    as (s0 & Hs & Hbound & _ & _).
  vm_compute in Hs. injection Hs as <-.
  eexists _, _. split; [reflexivity|].
  assert (Hrun : run demo_exec demo_commands 2 demo_trace
                   (mk [0; 1; 2]%nat [] [None; None; None])
                 = Some (mk [] []
                           [Some (result_of demo_exec 0 (py "echo A"));
                            Some (result_of demo_exec 1 (py "echo B"));
                            Some (result_of demo_exec 2 (py "sleep 2 && echo C"))]))
    by reflexivity.
  split; [exact Hrun|].
  split; [exact (Hbound _ _ Hrun)|].
  split; reflexivity.
Defined.

End OrchestratorExamples.


(** * Further properties *)

(** ** Truncation: bounds and edge cases *)

Section TruncatorBounds.

Import Truncator.

Lemma maybe_truncate_short_length (content : pystr) (max_size : Z) :
  len content <= max_size ->
  len (_maybe_truncate content max_size) = len content.
Proof.
  intros Hle. unfold _maybe_truncate.
  destruct (Z.leb_spec (len content) max_size); [done | lia].
Qed.

(** X1: For a limit of at least 2 the result of [_maybe_truncate] has at most
    [max_size + len(marker)] characters, whatever the content. *)
Theorem maybe_truncate_length_bound (content : pystr) (max_size : Z) :
  2 <= max_size ->
  len (_maybe_truncate content max_size) <= max_size + len TRUNCATION_MARKER.
Proof.
  intros H2. destruct (Z.le_gt_cases (len content) max_size) as [Hle | Hgt].
  - rewrite maybe_truncate_short_length by done.
    rewrite marker_length. lia.
  - destruct (maybe_truncate_shape content max_size H2) as (_ & _ & _ & Hlen & _);
      [lia|].
    rewrite Hlen. pose proof (Z.mul_div_le max_size 2). lia.
Qed.

Lemma maybe_truncate_length_bound_witness :
  2 <= 4 /\ len (_maybe_truncate (py "0123456789") 4) <= 4 + len TRUNCATION_MARKER.
Proof.
  assert (H : 2 <= 4) by lia.
  exact (conj H (maybe_truncate_length_bound (py "0123456789") 4 H)).
Defined.

(** X2: A content over the limit comes back shorter only if it has more than
    [2 * (max_size // 2) + len(marker)] characters: one that exceeds the limit
    by less than the length of the marker comes back longer than it was. *)
Theorem maybe_truncate_shortens_iff (content : pystr) (max_size : Z) :
  2 <= max_size ->
  max_size < len content ->
  (len (_maybe_truncate content max_size) < len content
   <-> 2 * (max_size / 2) + len TRUNCATION_MARKER < len content)
  /\ (len content < 2 * (max_size / 2) + len TRUNCATION_MARKER
      -> len content < len (_maybe_truncate content max_size)).
Proof.
  intros H2 Hgt.
  destruct (maybe_truncate_shape content max_size H2 Hgt) as (_ & _ & _ & Hlen & _).
  rewrite Hlen. split; [split|]; lia.
Qed.

Lemma maybe_truncate_shortens_iff_witness :
  2 <= 4 /\ 4 < len (py "0123456789")
  /\ len (py "0123456789") < len (_maybe_truncate (py "0123456789") 4).
Proof.
  assert (H2 : 2 <= 4) by lia.
  assert (Hgt : 4 < len (py "0123456789")) by (vm_compute; reflexivity).
  refine (conj H2 (conj Hgt
            (proj2 (maybe_truncate_shortens_iff (py "0123456789") 4 H2 Hgt) _))).
  vm_compute. reflexivity.
Defined.

(** X3: With a limit of 0 or 1 the half is 0: nothing is kept in front of the
    marker and, [content[-0:]] being the whole content, nothing is removed
    after it. *)
Theorem maybe_truncate_limit_below_2 (content : pystr) (max_size : Z) :
  0 <= max_size <= 1 ->
  max_size < len content ->
  _maybe_truncate content max_size = TRUNCATION_MARKER ++ content.
Proof.
  intros Hm Hgt. rewrite maybe_truncate_long by done.
  assert (max_size / 2 = 0) as -> by (apply Z.div_small; lia).
  reflexivity.
Qed.

Lemma maybe_truncate_limit_below_2_witness :
  0 <= 1 <= 1 /\ 1 < len (py "abc")
  /\ _maybe_truncate (py "abc") 1 = TRUNCATION_MARKER ++ py "abc".
Proof.
  assert (Hm : 0 <= 1 <= 1) by lia.
  assert (Hgt : 1 < len (py "abc")) by (vm_compute; reflexivity).
  exact (conj Hm (conj Hgt (maybe_truncate_limit_below_2 (py "abc") 1 Hm Hgt))).
Defined.

(** X4: With a negative limit every content, the empty one too, is over the
    limit: the result is the content without its last [k] characters, the
    marker, and the content without its first [k] characters, where
    [k = -(max_size // 2)]. *)
Theorem maybe_truncate_negative_limit (content : pystr) (max_size : Z) :
  max_size < 0 ->
  let k := Z.to_nat (- (max_size / 2)) in
  _maybe_truncate content max_size
  = take (length content - k) content ++ TRUNCATION_MARKER ++ drop k content.
Proof.
  intros Hm k.
  assert (Hhalf : max_size / 2 < 0) by (apply Z.div_lt_upper_bound; lia).
  rewrite maybe_truncate_long by (unfold len; lia).
  unfold slice_to, slice_from.
  destruct (Z.leb_spec 0 (max_size / 2)); [lia|].
  destruct (Z.leb_spec 0 (- (max_size / 2))); [|lia].
  replace (Z.to_nat (len content + max_size / 2)) with (length content - k)%nat
    by (unfold len, k; lia).
  reflexivity.
Qed.

Lemma maybe_truncate_negative_limit_witness :
  -3 < 0
  /\ _maybe_truncate (py "abcdef") (-3) = py "abcd" ++ TRUNCATION_MARKER ++ py "cdef"
  /\ _maybe_truncate [] (-3) = TRUNCATION_MARKER.
Proof.
  assert (Hm : -3 < 0) by lia.
  exact (conj Hm (conj (maybe_truncate_negative_limit (py "abcdef") (-3) Hm)
                       (maybe_truncate_negative_limit [] (-3) Hm))).
Defined.

End TruncatorBounds.


(** ** Constructors: content, exit code and process id *)

Section ConstructorFacts.

Import Truncator.

Lemma stored_content_bound (hidden : bool) (content : pystr) :
  (hidden = false -> len (stored_content hidden content) <= 30047)
  /\ (hidden = false -> len content <= MAX_CMD_OUTPUT_SIZE ->
      stored_content hidden content = content)
  /\ (hidden = true -> stored_content hidden content = content).
Proof.
  split; [|split]; intros ->; unfold stored_content; [| |done].
  - destruct (Z.le_gt_cases (len content) MAX_CMD_OUTPUT_SIZE) as [Hle | Hgt].
    + rewrite maybe_truncate_short_length by done. unfold MAX_CMD_OUTPUT_SIZE in Hle. lia.
    + rewrite maybe_truncate_default_length by done. lia.
  - intros Hle. unfold _maybe_truncate.
    destruct (Z.leb_spec (len content) MAX_CMD_OUTPUT_SIZE); [done | lia].
Qed.

Lemma cmd_init_content (content command observation : pystr)
    (metadata : metadata_arg) (hidden : bool) (kwargs : legacy_kwargs)
    (o : CmdOutputObservation.t) :
  CmdOutputObservation.init content command observation metadata hidden kwargs
    = Ok o ->
  CmdOutputObservation.content o = stored_content hidden content.
Proof.
  unfold CmdOutputObservation.init, stored_content.
  destruct (metadata_of_arg metadata); simpl; [|discriminate].
  intros [= <-]. by destruct hidden.
Qed.

Lemma batch_init_content (content : pystr)
    (results : option (list (ParallelCmdResult.t + pydict)))
    (observation : pystr) (hidden : bool) (o : ParallelCmdOutputObservation.t) :
  ParallelCmdOutputObservation.init content results observation hidden = Ok o ->
  ParallelCmdOutputObservation.content o = stored_content hidden content.
Proof.
  unfold ParallelCmdOutputObservation.init, stored_content.
  destruct (match results with Some l => _ | None => _ end); simpl; [|discriminate].
  intros [= <-]. by destruct hidden.
Qed.

(** X5: The content of an observation that is not hidden, single or batch, has at
    most 30047 characters (the limit and the marker), and is the content given
    when that has at most 30000; the content of a hidden observation is the
    content given, however long. *)
Theorem observation_content_bounded :
  (forall content command observation metadata hidden kwargs o,
      CmdOutputObservation.init content command observation metadata hidden kwargs
        = Ok o ->
      (hidden = false -> len (CmdOutputObservation.content o) <= 30047)
      /\ (hidden = false -> len content <= MAX_CMD_OUTPUT_SIZE ->
          CmdOutputObservation.content o = content)
      /\ (hidden = true -> CmdOutputObservation.content o = content))
  /\ (forall content results observation hidden o,
        ParallelCmdOutputObservation.init content results observation hidden = Ok o ->
        (hidden = false -> len (ParallelCmdOutputObservation.content o) <= 30047)
        /\ (hidden = false -> len content <= MAX_CMD_OUTPUT_SIZE ->
            ParallelCmdOutputObservation.content o = content)
        /\ (hidden = true -> ParallelCmdOutputObservation.content o = content)).
Proof.
  split.
  - intros content command observation metadata hidden kwargs o Ho.
    rewrite (cmd_init_content _ _ _ _ _ _ _ Ho). apply stored_content_bound.
  - intros content results observation hidden o Ho.
    rewrite (batch_init_content _ _ _ _ _ Ho). apply stored_content_bound.
Qed.

Lemma apply_legacy_fields (kwargs : legacy_kwargs) (md : CmdOutputMetadata.t) :
  CmdOutputMetadata.exit_code (apply_legacy kwargs md)
  = default (CmdOutputMetadata.exit_code md) (kw_exit_code kwargs)
  /\ CmdOutputMetadata.pid (apply_legacy kwargs md)
     = default (CmdOutputMetadata.pid md) (kw_pid kwargs)
  /\ CmdOutputMetadata.working_dir (apply_legacy kwargs md)
     = CmdOutputMetadata.working_dir md
  /\ CmdOutputMetadata.prefix (apply_legacy kwargs md) = CmdOutputMetadata.prefix md
  /\ CmdOutputMetadata.suffix (apply_legacy kwargs md) = CmdOutputMetadata.suffix md.
Proof.
  unfold apply_legacy. destruct kwargs as [[e|] [p|]], md; simpl; done.
Qed.

(** X6: The exit code and the process id of a constructed result: a legacy
    keyword argument ([exit_code]; [command_id] or [pid]) wins over the
    metadata, whether that was given as a mapping or as an object; without
    one the metadata decides; and without metadata either the exit code is
    -1, so that the result counts as an error.  This holds for the
    single-command observation and for a batch member. *)
Theorem constructed_exit_code_and_pid :
  (forall content command observation metadata hidden kwargs md o,
      metadata_of_arg metadata = Ok md ->
      CmdOutputObservation.init content command observation metadata hidden kwargs
        = Ok o ->
      CmdOutputObservation.exit_code o
        = default (CmdOutputMetadata.exit_code md) (kw_exit_code kwargs)
      /\ CmdOutputObservation.command_id o
         = default (CmdOutputMetadata.pid md) (kw_pid kwargs))
  /\ (forall command content metadata kwargs md r,
        metadata_of_arg metadata = Ok md ->
        ParallelCmdResult.init command content metadata kwargs = Ok r ->
        ParallelCmdResult.exit_code r
          = default (CmdOutputMetadata.exit_code md) (kw_exit_code kwargs)
        /\ CmdOutputMetadata.pid (ParallelCmdResult.metadata r)
           = default (CmdOutputMetadata.pid md) (kw_pid kwargs))
  /\ (forall content command observation hidden,
        exists o,
          CmdOutputObservation.init content command observation MetaNone hidden
            no_kwargs = Ok o
          /\ CmdOutputObservation.exit_code o = -1
          /\ CmdOutputObservation.error o = true
          /\ CmdOutputObservation.success o = false)
  /\ (forall command content,
        exists r,
          ParallelCmdResult.init command content MetaNone no_kwargs = Ok r
          /\ ParallelCmdResult.exit_code r = -1
          /\ ParallelCmdResult.error r = true
          /\ ParallelCmdResult.success r = false).
Proof.
  split; [|split; [|split]].
  - intros content command observation metadata hidden kwargs md o Hmd.
    unfold CmdOutputObservation.init. rewrite Hmd. simpl. intros [= <-].
    unfold CmdOutputObservation.exit_code, CmdOutputObservation.command_id. simpl.
    destruct (apply_legacy_fields kwargs md) as (He & Hp & _). done.
  - intros command content metadata kwargs md r Hmd.
    unfold ParallelCmdResult.init. rewrite Hmd. simpl. intros [= <-].
    unfold ParallelCmdResult.exit_code. simpl.
    destruct (apply_legacy_fields kwargs md) as (He & Hp & _). done.
  - intros content command observation hidden. eexists. split; [reflexivity|]. done.
  - intros command content. eexists. split; [reflexivity|]. done.
Qed.

Lemma constructed_exit_code_and_pid_witness :
  exists o,
    CmdOutputObservation.init (py "ok") (py "true") (py "run")
      (MetaDict [(py "exit_code", PInt 1); (py "pid", PInt 7)]) false
      (mkLegacy (Some 0) None) = Ok o
    /\ CmdOutputObservation.exit_code o = 0
    /\ CmdOutputObservation.command_id o = 7.
Proof.
  destruct constructed_exit_code_and_pid as (H1 & _).
  eexists. split; [reflexivity|].
  exact (H1 (py "ok") (py "true") (py "run")
            (MetaDict [(py "exit_code", PInt 1); (py "pid", PInt 7)]) false
            (mkLegacy (Some 0) None) _ _ eq_refl eq_refl).
Defined.

(** X7: [from_dict] needs the keys [command] and [content]: without either it
    raises a [KeyError].  The key [metadata] may be absent or hold [None]; the
    result then has the default metadata. *)
Theorem from_dict_keys (data : pydict) :
  (dict_get (py "command") data = None ->
   ParallelCmdResult.from_dict data = Raise KeyError)
  /\ (forall c, dict_get (py "command") data = Some (PStr c) ->
        dict_get (py "content") data = None ->
        ParallelCmdResult.from_dict data = Raise KeyError)
  /\ (forall c o, dict_get (py "command") data = Some (PStr c) ->
        dict_get (py "content") data = Some (PStr o) ->
        dict_get (py "metadata") data = None
        \/ dict_get (py "metadata") data = Some PNone ->
        ParallelCmdResult.from_dict data
        = Ok (ParallelCmdResult.mk c o CmdOutputMetadata.default)).
Proof.
  unfold ParallelCmdResult.from_dict, ParallelCmdResult.subscript.
  split; [|split].
  - by intros ->.
  - intros c -> ->. done.
  - intros c o -> -> [-> | ->]; done.
Qed.

End ConstructorFacts.


(** ** The batch observation: counts, filters and rendering *)

Section BatchFacts.

Lemma result_success_iff (r : ParallelCmdResult.t) :
  ParallelCmdResult.success r = true <-> ParallelCmdResult.exit_code r = 0.
Proof.
  unfold ParallelCmdResult.success, ParallelCmdResult.error.
  rewrite negb_involutive. apply Z.eqb_eq.
Qed.

Lemma result_error_iff (r : ParallelCmdResult.t) :
  ParallelCmdResult.error r = true <-> ParallelCmdResult.exit_code r <> 0.
Proof.
  unfold ParallelCmdResult.error. rewrite negb_true_iff. apply Z.eqb_neq.
Qed.

Lemma filter_all_iff {A} (P : A -> Prop) `{!forall x, Decision (P x)}
    (l : list A) :
  filter P l = l <-> forall x, x ∈ l -> P x.
Proof.
  split.
  - intros Heq x Hx. rewrite <- Heq in Hx. by apply list_elem_of_filter in Hx as [? _].
  - intros Hall. induction l as [|x l IH]; [done|].
    rewrite filter_cons_True by (apply Hall; left).
    f_equal. apply IH. intros y Hy. apply Hall. by right.
Qed.

Lemma filter_nonempty_iff {A} (P : A -> Prop) `{!forall x, Decision (P x)}
    (l : list A) :
  filter P l <> [] <-> exists x, x ∈ l /\ P x.
Proof.
  split.
  - destruct (filter P l) as [|x l'] eqn:Hf; [done|]. intros _. exists x.
    assert (Hx : x ∈ filter P l) by (rewrite Hf; left).
    apply list_elem_of_filter in Hx. tauto.
  - intros (x & Hx & HP) Hf.
    assert (Hin : x ∈ filter P l) by (by apply list_elem_of_filter).
    rewrite Hf in Hin. by apply elem_of_nil in Hin.
Qed.

(** X8: For a batch, success is the negation of error; the batch is in error
    exactly when [get_failed_results] is not empty, and succeeds exactly when
    [get_successful_results] returns all the results.  An empty batch
    succeeds. *)
Theorem batch_success_and_filters (obs : ParallelCmdOutputObservation.t) :
  ParallelCmdOutputObservation.success obs
    = negb (ParallelCmdOutputObservation.error obs)
  /\ (ParallelCmdOutputObservation.error obs = true
      <-> ParallelCmdOutputObservation.get_failed_results obs <> [])
  /\ (ParallelCmdOutputObservation.success obs = true
      <-> ParallelCmdOutputObservation.get_successful_results obs
          = ParallelCmdOutputObservation.results obs)
  /\ (ParallelCmdOutputObservation.results obs = [] ->
      ParallelCmdOutputObservation.success obs = true).
Proof.
  unfold ParallelCmdOutputObservation.success, ParallelCmdOutputObservation.error,
    ParallelCmdOutputObservation.get_failed_results,
    ParallelCmdOutputObservation.get_successful_results,
    ParallelCmdOutputObservation.get_results_by_exit_code.
  split; [|split; [|split]].
  - induction (ParallelCmdOutputObservation.results obs) as [|r rs IH]; [done|].
    cbn [forallb existsb]. rewrite IH. unfold ParallelCmdResult.success.
    by destruct (ParallelCmdResult.error r).
  - rewrite filter_nonempty_iff, existsb_exists. split.
    + intros (r & Hin & He). exists r. split; [by apply list_elem_of_In|].
      by apply result_error_iff.
    + intros (r & Hin & He). exists r. split; [by apply list_elem_of_In|].
      by apply result_error_iff.
  - rewrite filter_all_iff, forallb_forall. split.
    + intros H r Hin. apply result_success_iff, H. by apply list_elem_of_In.
    + intros H r Hin. apply result_success_iff, H. by apply list_elem_of_In.
  - by intros ->.
Qed.

(** X9: Every result is either successful or failed: the two filters partition
    the results, and the results with two different exit codes are
    disjoint. *)
Theorem batch_results_partition (obs : ParallelCmdOutputObservation.t) :
  ParallelCmdOutputObservation.get_successful_results obs
    ++ ParallelCmdOutputObservation.get_failed_results obs
    ≡ₚ ParallelCmdOutputObservation.results obs
  /\ (length (ParallelCmdOutputObservation.get_successful_results obs)
      + length (ParallelCmdOutputObservation.get_failed_results obs)
      = length (ParallelCmdOutputObservation.results obs))%nat
  /\ (forall c1 c2 r, c1 <> c2 ->
        r ∈ ParallelCmdOutputObservation.get_results_by_exit_code obs c1 ->
        r ∉ ParallelCmdOutputObservation.get_results_by_exit_code obs c2).
Proof.
  unfold ParallelCmdOutputObservation.get_failed_results,
    ParallelCmdOutputObservation.get_successful_results,
    ParallelCmdOutputObservation.get_results_by_exit_code.
  assert (Hp : filter (fun r => ParallelCmdResult.exit_code r = 0)
                 (ParallelCmdOutputObservation.results obs)
               ++ filter (fun r => ParallelCmdResult.exit_code r <> 0)
                    (ParallelCmdOutputObservation.results obs)
               ≡ₚ ParallelCmdOutputObservation.results obs)
    by apply filter_app_complement.
  split; [done|]. split.
  - apply Permutation_length in Hp. by rewrite length_app in Hp.
  - intros c1 c2 r Hne [H1 _]%list_elem_of_filter [H2 _]%list_elem_of_filter.
    congruence.
Qed.

Lemma success_count_fold (rs : list ParallelCmdResult.t) (acc : Z) :
  foldl (fun acc r => if ParallelCmdResult.success r then acc + 1 else acc) acc rs
  = acc + len (filter (fun r => ParallelCmdResult.exit_code r = 0) rs).
Proof.
  revert acc. induction rs as [|r rs IH]; intros acc; simpl.
  - unfold len. simpl. lia.
  - rewrite IH, filter_cons. pose proof (result_success_iff r) as Hs.
    destruct (ParallelCmdResult.success r).
    + rewrite decide_True by (by apply Hs). unfold len. simpl. lia.
    + rewrite decide_False; [done|]. intros H. apply Hs in H. discriminate.
Qed.

(** X10: The numbers in [message] are the sizes of the result list, of
    [get_successful_results] and of [get_failed_results]. *)
Theorem message_counts (obs : ParallelCmdOutputObservation.t) :
  ParallelCmdOutputObservation.message obs
  = py "Executed "
    ++ Num.str_of_int (len (ParallelCmdOutputObservation.results obs))
    ++ py " commands: "
    ++ Num.str_of_int
         (len (ParallelCmdOutputObservation.get_successful_results obs))
    ++ py " succeeded, "
    ++ Num.str_of_int (len (ParallelCmdOutputObservation.get_failed_results obs))
    ++ py " failed".
Proof.
  unfold ParallelCmdOutputObservation.message,
    ParallelCmdOutputObservation.success_count.
  rewrite success_count_fold, Z.add_0_l.
  pose proof (filter_app_complement
                (fun r => ParallelCmdResult.exit_code r = 0)
                (ParallelCmdOutputObservation.results obs)) as Hp.
  apply Permutation_length in Hp. rewrite length_app in Hp.
  unfold ParallelCmdOutputObservation.get_failed_results,
    ParallelCmdOutputObservation.get_successful_results,
    ParallelCmdOutputObservation.get_results_by_exit_code.
  replace (len (ParallelCmdOutputObservation.results obs)
           - len (filter (fun r => ParallelCmdResult.exit_code r = 0)
                    (ParallelCmdOutputObservation.results obs)))
    with (len (filter (fun r => ParallelCmdResult.exit_code r <> 0)
                 (ParallelCmdOutputObservation.results obs)))
    by (unfold len; lia).
  reflexivity.
Qed.

End BatchFacts.


Section BatchConstruction.

(** An entry of the [results] argument that the constructor can take: a
    record, or a mapping [from_dict] accepts. *)
#[local] Abbreviation convertible := (fun x : ParallelCmdResult.t + pydict =>
  match x with
  | inl _ => True
  | inr d => exists r, ParallelCmdResult.from_dict d = Ok r
  end).





End BatchConstruction.

(** ** Rendering *)

Section RenderingFacts.

Lemma join_app (sep : pystr) (l1 l2 : list pystr) :
  l1 <> [] -> l2 <> [] ->
  Str.join sep (l1 ++ l2) = Str.join sep l1 ++ sep ++ Str.join sep l2.
Proof.
  intros H1 H2. induction l1 as [|x l1 IH]; [done|].
  destruct l1 as [|y l1].
  - destruct l2 as [|z l2]; [done|]. reflexivity.
  - change (x ++ sep ++ Str.join sep ((y :: l1) ++ l2)
            = (x ++ sep ++ Str.join sep (y :: l1)) ++ sep ++ Str.join sep l2).
    rewrite IH by done. by rewrite <- !app_assoc.
Qed.

Lemma parts_from_app (i : Z) (rs1 rs2 : list ParallelCmdResult.t) :
  ParallelCmdOutputObservation.parts_from i (rs1 ++ rs2)
  = ParallelCmdOutputObservation.parts_from i rs1
    ++ ParallelCmdOutputObservation.parts_from (i + len rs1) rs2.
Proof.
  revert i. induction rs1 as [|r rs1 IH]; intros i.
  - unfold len. simpl. by rewrite Z.add_0_r.
  - replace (i + len (r :: rs1)) with (i + 1 + len rs1)
      by (unfold len; simpl length; lia).
    cbn [app ParallelCmdOutputObservation.parts_from].
    by rewrite IH, <- app_assoc.
Qed.

Lemma result_parts_length (i : Z) (r : ParallelCmdResult.t) :
  (3 <= length (ParallelCmdOutputObservation.result_parts i r) <= 4)%nat.
Proof.
  unfold ParallelCmdOutputObservation.result_parts.
  destruct (truthy _); simpl; lia.
Qed.

Lemma parts_from_length (i : Z) (rs : list ParallelCmdResult.t) :
  (3 * length rs <= length (ParallelCmdOutputObservation.parts_from i rs)
   <= 4 * length rs)%nat.
Proof.
  revert i. induction rs as [|r rs IH]; intros i; [simpl; lia|].
  cbn [ParallelCmdOutputObservation.parts_from].
  rewrite length_app. pose proof (result_parts_length i r).
  specialize (IH (i + 1)). cbn [length]. lia.
Qed.

(** X12: The rendering of a batch is the renderings of its results, one after
    the other and separated by a newline, each under a header with its
    1-based position: the block of the result that follows [rs1] is numbered
    [len(rs1) + 1].  A batch of [n] results is rendered in at least [3 n] and
    at most [4 n] lines' worth of parts, and an empty batch as the empty
    text. *)
Theorem batch_rendering (obs : ParallelCmdOutputObservation.t) :
  (forall rs1 r rs2,
      ParallelCmdOutputObservation.results obs = rs1 ++ r :: rs2 ->
      ParallelCmdOutputObservation.to_agent_observation obs
      = match rs1 with
        | [] => []
        | _ => Str.join [10%N] (ParallelCmdOutputObservation.parts_from 1 rs1)
               ++ [10%N]
        end
        ++ Str.join [10%N]
             (ParallelCmdOutputObservation.result_parts (len rs1 + 1) r)
        ++ match rs2 with
           | [] => []
           | _ => [10%N]
                  ++ Str.join [10%N]
                       (ParallelCmdOutputObservation.parts_from (len rs1 + 2) rs2)
           end)
  /\ (forall i r,
        exists rest,
          ParallelCmdOutputObservation.result_parts i r
          = (py "=== Command " ++ Num.str_of_int i ++ py ": "
             ++ ParallelCmdResult.command r ++ py " ===") :: rest)
  /\ (3 * length (ParallelCmdOutputObservation.results obs)
      <= length (ParallelCmdOutputObservation.parts_from 1
                   (ParallelCmdOutputObservation.results obs))
      <= 4 * length (ParallelCmdOutputObservation.results obs))%nat
  /\ (ParallelCmdOutputObservation.results obs = [] ->
      ParallelCmdOutputObservation.to_agent_observation obs = []).
Proof.
  split; [|split; [|split]].
  - intros rs1 r rs2 Hres.
    unfold ParallelCmdOutputObservation.to_agent_observation. rewrite Hres.
    assert (Hne : forall i r0 rs,
               ParallelCmdOutputObservation.parts_from i (r0 :: rs) <> []).
    { intros i r0 rs H. apply (f_equal length) in H.
      pose proof (parts_from_length i (r0 :: rs)). simpl in *. lia. }
    assert (Hne' : forall i r0,
               ParallelCmdOutputObservation.result_parts i r0 <> []).
    { intros i r0 H. apply (f_equal length) in H.
      pose proof (result_parts_length i r0). simpl in *. lia. }
    rewrite parts_from_app.
    cbn [ParallelCmdOutputObservation.parts_from].
    replace (1 + len rs1 + 1) with (len rs1 + 2) by lia.
    replace (1 + len rs1) with (len rs1 + 1) by lia.
    destruct rs1 as [|r1 rs1], rs2 as [|r2 rs2].
    + cbn [ParallelCmdOutputObservation.parts_from app]. by rewrite !app_nil_r.
    + cbn [ParallelCmdOutputObservation.parts_from app].
      by rewrite join_app by done.
    + cbn [ParallelCmdOutputObservation.parts_from].
      rewrite !app_nil_r, join_app by done. by rewrite <- !app_assoc.
    + rewrite join_app by (done || (intros H; by apply app_eq_nil in H as [? ?])).
      rewrite join_app by done. by rewrite <- !app_assoc.
  - intros i r. eexists. reflexivity.
  - apply parts_from_length.
  - unfold ParallelCmdOutputObservation.to_agent_observation. by intros ->.
Qed.

Lemma command_lines_app (i : Z) (cs1 cs2 : list pystr) :
  ParallelCmdRunAction.command_lines i (cs1 ++ cs2)
  = ParallelCmdRunAction.command_lines i cs1
    ++ ParallelCmdRunAction.command_lines (i + len cs1) cs2.
Proof.
  revert i. induction cs1 as [|c cs1 IH]; intros i.
  - unfold len. simpl. by rewrite Z.add_0_r.
  - replace (i + len (c :: cs1)) with (i + 1 + len cs1)
      by (unfold len; simpl length; lia).
    cbn [app ParallelCmdRunAction.command_lines].
    by rewrite IH, <- !app_assoc.
Qed.

(** X13: The text of a batch action lists its commands one per line, numbered
    from 1 in the order of the list, after a heading that gives their number;
    the line with the thought is there only for a thought that is not
    empty. *)
Theorem action_str_lists_commands (source : pystr)
    (a : ParallelCmdRunAction.t) :
  (forall cs1 c cs2,
      ParallelCmdRunAction.commands a = cs1 ++ c :: cs2 ->
      exists heading,
        ParallelCmdRunAction.__str__ source a
        = heading
          ++ ParallelCmdRunAction.command_lines 1 cs1
          ++ (py "  " ++ Num.str_of_int (len cs1 + 1) ++ py ". " ++ c ++ [10%N])
          ++ ParallelCmdRunAction.command_lines (len cs1 + 2) cs2)
  /\ (ParallelCmdRunAction.thought a = [] ->
      ParallelCmdRunAction.__str__ source a
      = py "**ParallelCmdRunAction (source=" ++ source ++ py ", "
        ++ Num.str_of_int (len (ParallelCmdRunAction.commands a))
        ++ py " commands)**" ++ [10%N] ++ py "COMMANDS:" ++ [10%N]
        ++ ParallelCmdRunAction.command_lines 1 (ParallelCmdRunAction.commands a)).
Proof.
  split.
  - intros cs1 c cs2 Hc. unfold ParallelCmdRunAction.__str__. rewrite Hc.
    eexists. rewrite command_lines_app.
    cbn [ParallelCmdRunAction.command_lines].
    replace (1 + len cs1 + 1) with (len cs1 + 2) by lia.
    replace (1 + len cs1) with (len cs1 + 1) by lia.
    reflexivity.
  - intros Ht. unfold ParallelCmdRunAction.__str__. rewrite Ht.
    by rewrite <- !app_assoc.
Qed.

End RenderingFacts.


(** ** The scan: incomplete and growing captures *)

Section ScanGrowth.

Lemma region_END_occurs (text : pystr) (m : Match) :
  region text m ->
  occurs_at BEGIN_LITERAL text (m_start m)
  /\ occurs_at END_LITERAL text
       (m_start m + length BEGIN_LITERAL + length (m_group1 m)).
Proof.
  intros (_ & [post Hpost] & _ & _). unfold occurs_at. split.
  - rewrite Hpost. by apply prefix_app_r.
  - rewrite <- Nat.add_assoc, <- drop_drop, Hpost, app_assoc.
    rewrite <- length_app, drop_app_length. by apply prefix_app_r.
Qed.

Lemma finditer_nil_iff (text : pystr) :
  Regex.finditer text = [] <-> forall m, ~ region text m.
Proof.
  split.
  - intros Hnil m Hr.
    destruct (finditer_regions text) as (_ & _ & Hcompl).
    destruct (Hcompl m Hr) as [Hin | (m0 & Hin & _)];
      rewrite Hnil in Hin; by apply elem_of_nil in Hin.
  - intros Hno. destruct (Regex.finditer text) as [|m l] eqn:Hf; [done|].
    destruct (Hno m). apply finditer_regions. rewrite Hf. by left.
Qed.

(** X14: A capture in which the END literal occurs nowhere, or in which the BEGIN
    literal starts no line, has no metadata block: [matches_ps1_metadata]
    returns the empty list. *)
Theorem matches_need_both_sentinels (text : pystr) :
  (forall p, ~ occurs_at END_LITERAL text p)
  \/ (forall p, line_start text p -> ~ occurs_at BEGIN_LITERAL text p) ->
  CmdOutputMetadata.matches_ps1_metadata text = Ok [].
Proof.
  intros H. rewrite matches_ps1_metadata_filter.
  assert (Hnil : Regex.finditer text = []).
  { apply finditer_nil_iff. intros m Hr.
    destruct (region_END_occurs text m Hr) as [Hb He].
    destruct H as [H | H]; [by eapply H|].
    destruct Hr as (Hls & _). by eapply H. }
  by rewrite Hnil.
Qed.

Lemma prefix_of_app_l {A} (p a b : list A) :
  p `prefix_of` a ++ b -> (length p <= length a)%nat -> p `prefix_of` a.
Proof.
  intros [k Hk] Hlen. exists (drop (length p) a).
  assert (Ht : take (length p) a = p).
  { rewrite <- (take_app_le a b) by done. rewrite Hk. apply take_app_length. }
  transitivity (take (length p) a ++ drop (length p) a);
    [by rewrite take_drop | by rewrite Ht].
Qed.

Lemma find_exists (p s : pystr) (j : nat) :
  p `prefix_of` drop j s -> (j <= length s)%nat ->
  exists k, Str.find p s = Some k.
Proof.
  revert j. induction s as [|c s IH]; intros j Hp Hj.
  - simpl. rewrite drop_nil in Hp. apply startswith_prefix in Hp. rewrite Hp. eauto.
  - cbn [Str.find]. destruct (Str.startswith p (c :: s)) eqn:Hsw; [eauto|].
    destruct j as [|j].
    + rewrite drop_0 in Hp. apply startswith_prefix in Hp. congruence.
    + destruct (IH j) as [k Hk]; [done | simpl in Hj; lia |]. rewrite Hk. eauto.
Qed.

Lemma find_None_absent (p s : pystr) (j : nat) :
  p <> [] -> Str.find p s = None -> ~ occurs_at p s j.
Proof.
  intros Hne Hf Ho. unfold occurs_at in Ho.
  destruct (le_gt_dec j (length s)) as [Hj | Hj].
  - destruct (find_exists p s j Ho Hj) as [k Hk]. congruence.
  - rewrite drop_ge in Ho by lia. by apply prefix_nil_inv in Ho.
Qed.

Lemma matches_need_both_sentinels_witness :
  CmdOutputMetadata.matches_ps1_metadata
    (BEGIN_LITERAL ++ pyq "{'pid': '104', 'exit_code': '0'}" ++ NL)
  = Ok [].
Proof.
  apply matches_need_both_sentinels. left. intros p.
  apply find_None_absent; [discriminate | vm_compute; reflexivity].
Defined.






End ScanGrowth.


(** ** The scan and the decoder together *)

Section ScanAndDecode.










Lemma int_float_str_overflow_iff (v : pyobj) :
  CmdOutputMetadata.int_float_str v = Raise OverflowError
  <-> exists neg, CmdOutputMetadata.float_of_str_of v = Ok (FInf neg).
Proof.
  unfold CmdOutputMetadata.int_float_str.
  destruct (CmdOutputMetadata.float_of_str_of v) as [[neg0 m0 e0 | neg0 |]|e] eqn:Hf;
    simpl.
  - split; [discriminate | by intros [? ?]].
  - split; [by eauto | done].
  - split; [discriminate | by intros [? ?]].
  - split; [|by intros [? ?]]. intros [= ->].
    assert (CmdOutputMetadata.int_float_str v = Raise OverflowError) as Hi
      by (unfold CmdOutputMetadata.int_float_str; by rewrite Hf).
    destruct v; simpl in Hf; try discriminate.
    by apply float_of_str_raises in Hf.
Qed.

(** X19: A block whose [pid] or [exit_code] converts to an infinite float (the
    texts [inf] and [Infinity] with any sign and letter case, a numeral too
    large for a float, or such a JSON number) makes [from_ps1_match] raise an
    [OverflowError], which its handler does not catch. *)
Theorem from_ps1_match_infinite_field (m : Match) (d : pydict) (k : string)
    (v : pyobj) (neg : bool) :
  Json.loads (m_group1 m) = Ok (PDict d) ->
  k = "pid"%string \/ k = "exit_code"%string ->
  dict_get (py k) d = Some v ->
  CmdOutputMetadata.float_of_str_of v = Ok (FInf neg) ->
  CmdOutputMetadata.from_ps1_match m = Raise OverflowError.
Proof.
  intros Hd Hk Hv Hinf.
  assert (Hov : CmdOutputMetadata.int_float_str v = Raise OverflowError)
    by (apply int_float_str_overflow_iff; eauto).
  destruct Hk as [-> | ->]; [|by eapply from_ps1_match_overflow].
  unfold CmdOutputMetadata.from_ps1_match. rewrite Hd. simpl.
  by rewrite convert_field_spec, Hv, Hov.
Qed.

Lemma from_ps1_match_infinite_field_witness :
  CmdOutputMetadata.from_ps1_match
    (mkMatch 0 0 (pyq "{'pid': '-Infinity', 'exit_code': '0'}"))
  = Raise OverflowError.
Proof.
  refine (from_ps1_match_infinite_field _
            [(py "pid", PStr (py "-Infinity")); (py "exit_code", PStr (py "0"))]
            "pid" (PStr (py "-Infinity")) true _ (or_introl eq_refl) _ _);
    vm_compute; reflexivity.
Defined.

End ScanAndDecode.

(** ** The conversion of an integer field *)

Section IntegerFields.

Import Num.

Lemma digits_of_uint_digits (u : Decimal.uint) :
  Forall (fun c => is_digit c = true) (digits_of_uint u).
Proof. induction u; simpl; by constructor. Qed.

Lemma Z_of_digits_acc (u : Decimal.uint) (acc : positive) :
  foldl (fun a c => 10 * a + digit_val c) (Zpos acc) (digits_of_uint u)
  = Zpos (Pos.of_uint_acc u acc).
Proof.
  revert acc. induction u; intros acc; cbn [digits_of_uint foldl Pos.of_uint_acc];
    [done | rewrite <- IHu; f_equal; unfold digit_val; lia ..].
Qed.

Lemma Z_of_digits_of_uint (u : Decimal.uint) :
  Z_of_digits (digits_of_uint u) = Z.of_N (Pos.of_uint u).
Proof.
  unfold Z_of_digits. induction u; cbn [digits_of_uint foldl Pos.of_uint];
    [done | exact IHu | apply Z_of_digits_acc ..].
Qed.

Lemma is_digit_facts (c : N) :
  is_digit c = true ->
  (c =? 95)%N = false /\ (c =? 45)%N = false /\ (c =? 43)%N = false
  /\ is_float_space c = false /\ Str.lower c = c.
Proof.
  unfold is_digit, is_float_space, Str.is_space, Str.lower.
  intros [H1 H2]%andb_prop. apply N.leb_le in H1, H2.
  repeat match goal with
         | |- context [(?a =? ?b)%N] =>
             destruct (N.eqb_spec a b); [lia|]
         | |- context [(?a <=? ?b)%N] =>
             destruct (N.leb_spec a b); try lia
         end; by cbn.
Qed.

Lemma drop_underscores_none (prev : N) (s : pystr) :
  (prev =? 95)%N = false ->
  Forall (fun c => (c =? 95)%N = false) s ->
  drop_underscores prev s = Some s.
Proof.
  intros Hp Hs. revert prev Hp.
  induction Hs as [|c s Hc Hs IH]; intros prev Hp; simpl.
  - by rewrite Hp.
  - rewrite Hc, Hp. simpl. by rewrite IH.
Qed.

Lemma lstrip_with_head (sp : N -> bool) (c : N) (s : pystr) :
  sp c = false -> Str.lstrip_with sp (c :: s) = c :: s.
Proof. intros H. simpl. by rewrite H. Qed.

Lemma strip_with_ends (sp : N -> bool) (s : pystr) :
  Forall (fun c => sp c = false) s -> Str.strip_with sp s = s.
Proof.
  intros Hs. unfold Str.strip_with.
  assert (Hl : forall t, Forall (fun c => sp c = false) t ->
                         Str.lstrip_with sp t = t).
  { intros [|c t] Ht; [done|]. apply lstrip_with_head. by inversion Ht. }
  rewrite (Hl s Hs), Hl, reverse_involutive; [done|].
  by apply Forall_reverse.
Qed.

Lemma span_digits_all (ds : pystr) :
  Forall (fun c => is_digit c = true) ds -> span_digits ds = (ds, []).
Proof.
  induction 1 as [|c ds Hc Hds IH]; simpl; [done|]. by rewrite Hc, IH.
Qed.

Lemma parse_decimal_digits (neg : bool) (ds : pystr) :
  ds <> [] ->
  Forall (fun c => is_digit c = true) ds ->
  parse_decimal neg ds = Ok (round_double neg (Z_of_digits ds) 1).
Proof.
  intros Hne Hds. unfold parse_decimal. rewrite span_digits_all by done.
  rewrite app_nil_r. destruct ds as [|c ds]; [done|]. cbn.
  unfold float_of_decimal. cbn. by rewrite Z.mul_1_r.
Qed.

(** [float] of a run of digits with an optional minus sign in front. *)
Lemma float_of_str_digits (neg : bool) (ds : pystr) :
  ds <> [] ->
  Forall (fun c => is_digit c = true) ds ->
  float_of_str ((if neg then [45%N] else []) ++ ds)
  = Ok (round_double neg (Z_of_digits ds) 1).
Proof.
  intros Hne Hds. unfold float_of_str.
  assert (Hsp : Forall (fun c => is_float_space c = false) ds).
  { eapply Forall_impl; [exact Hds|]. intros c Hc. by apply is_digit_facts. }
  destruct ds as [|c ds]; [done|].
  assert (Hc : is_digit c = true) by (by inversion Hds).
  destruct (is_digit_facts c Hc) as (H95 & H45 & H43 & Hfs & Hlow).
  assert (Hbody : forall t, (if pystr_eqb (Str.lower <$> c :: ds) (py "inf")
                                || pystr_eqb (Str.lower <$> c :: ds) (py "infinity")
                             then Ok (FInf neg)
                             else if pystr_eqb (Str.lower <$> c :: ds) (py "nan")
                                  then Ok FNaN else t) = t).
  { intros t. unfold pystr_eqb. cbn [fmap list_fmap]. rewrite Hlow.
    rewrite !bool_decide_eq_false_2; [reflexivity | ..];
      intros Heq; vm_compute in Heq; injection Heq as -> _;
      by vm_compute in Hc. }
  assert (Hsign : Forall (fun c => (c =? 95)%N = false
                                   /\ is_float_space c = false)
                    (if neg then [45%N] else [])).
  { destruct neg; repeat constructor. }
  assert (Hall : Forall (fun c => (c =? 95)%N = false
                                  /\ is_float_space c = false)
                   ((if neg then [45%N] else []) ++ c :: ds)).
  { apply Forall_app. split; [done|].
    eapply Forall_impl; [exact Hds|]. intros c0 Hc0.
    by destruct (is_digit_facts c0 Hc0) as (? & _ & _ & ? & _). }
  rewrite drop_underscores_none;
    [| done | eapply Forall_impl; [exact Hall | by intros ? [? ?]]].
  rewrite strip_with_ends
    by (eapply Forall_impl; [exact Hall | by intros ? [? ?]]).
  destruct neg; cbn [app].
  - change (45 =? 45)%N with true. cbv iota beta.
    rewrite Hbody. by apply parse_decimal_digits.
  - rewrite H45, H43. cbv iota beta. rewrite Hbody. by apply parse_decimal_digits.
Qed.

(** [float(str(n))] read from the decimal numeral of [n] is the float the
    embedding gives an integer field directly. *)
Lemma float_of_str_str_of_int (n : Z) :
  float_of_str (str_of_int n) = Ok (float_of_int n).
Proof.
  destruct n as [|p|p]; [by vm_compute | |].
  - unfold str_of_int, float_of_int.
    assert (Hne : digits_of_uint (Pos.to_uint p) <> []).
    { intros H. pose proof (Z_of_digits_of_uint (Pos.to_uint p)) as Hz.
      rewrite H, DecimalPos.Unsigned.of_to in Hz. discriminate. }
    etransitivity;
      [exact (float_of_str_digits false _ Hne (digits_of_uint_digits _))|].
    by rewrite Z_of_digits_of_uint, DecimalPos.Unsigned.of_to.
  - unfold str_of_int, float_of_int.
    assert (Hne : digits_of_uint (Pos.to_uint p) <> []).
    { intros H. pose proof (Z_of_digits_of_uint (Pos.to_uint p)) as Hz.
      rewrite H, DecimalPos.Unsigned.of_to in Hz. discriminate. }
    etransitivity;
      [exact (float_of_str_digits true _ Hne (digits_of_uint_digits _))|].
    by rewrite Z_of_digits_of_uint, DecimalPos.Unsigned.of_to.
Qed.

(** An integer of at most 53 bits is a float, and [int] gives it back. *)
Lemma round_double_exact (neg : bool) (a : Z) :
  0 < a <= 2 ^ 53 ->
  int_of_float (round_double neg a 1) = Ok (if neg then - a else a).
Proof.
  intros [Hpos Hle].
  destruct (Z.eq_dec a (2 ^ 53)) as [-> | Hne];
    [destruct neg; vm_compute; reflexivity|].
  assert (Hlog : 0 <= Z.log2 a < 53).
  { split; [apply Z.log2_nonneg | apply Z.log2_lt_pow2; lia]. }
  destruct (Z.log2_spec a Hpos) as [Hlo Hhi].
  unfold round_double. cbv zeta.
  destruct (Z.leb_spec a 0); [lia|].
  change (Z.log2 1) with 0. rewrite Z.sub_0_r.
  destruct (Z.leb_spec 0 (Z.log2 a)); [|lia].
  destruct (Z.ltb_spec a (1 * 2 ^ Z.log2 a)); [lia|].
  rewrite (Z.max_l (Z.log2 a - 52)) by lia.
  destruct (Z.leb_spec 0 (Z.log2 a - 52)) as [Hq | Hq].
  - assert (Z.log2 a - 52 = 0) as -> by lia.
    change (1 * 2 ^ 0) with 1. rewrite Z.div_1_r, Z.mod_1_r.
    change ((1 <? 2 * 0) || (1 =? 2 * 0) && Z.odd a) with false. cbv iota.
    destruct (Z.leb_spec (2 ^ 1024) (a * 2 ^ 0)) as [Hbig | _].
    { assert (2 ^ 53 < 2 ^ 1024) by (by vm_compute). lia. }
    simpl int_of_float. by rewrite Z.mul_1_r.
  - rewrite Z.div_1_r, Z.mod_1_r.
    change ((1 <? 2 * 0) || (1 =? 2 * 0)
            && Z.odd (a * 2 ^ (- (Z.log2 a - 52)))) with false. cbv iota.
    rewrite (Z.pow_neg_r 2 (Z.log2 a - 52)) by lia. rewrite Z.mul_0_r.
    change (2 ^ 1024 <=? 0) with false. cbv iota.
    unfold int_of_float. destruct (Z.leb_spec 0 (Z.log2 a - 52)); [lia|].
    rewrite Z.div_mul; [done|]. apply Z.pow_nonzero; lia.
Qed.

Lemma int_of_float_of_int (n : Z) :
  - 2 ^ 53 <= n <= 2 ^ 53 -> int_of_float (float_of_int n) = Ok n.
Proof.
  intros Hn. unfold float_of_int. destruct n as [|p|p]; [by vm_compute | |].
  - change (Z.pos p <? 0) with false. by rewrite round_double_exact by (simpl; lia).
  - change (Z.neg p <? 0) with true.
    by rewrite round_double_exact by (simpl; lia).
Qed.

Lemma int_float_str_numeral (n : Z) :
  - 2 ^ 53 <= n <= 2 ^ 53 ->
  CmdOutputMetadata.int_float_str (PInt n) = Ok n
  /\ CmdOutputMetadata.int_float_str (PStr (str_of_int n)) = Ok n.
Proof.
  intros Hn. unfold CmdOutputMetadata.int_float_str.
  cbn [CmdOutputMetadata.float_of_str_of]. rewrite float_of_str_str_of_int.
  simpl. by rewrite int_of_float_of_int.
Qed.

(** X20: An integer [pid] or [exit_code] of at most 53 bits is converted to
    itself, whether the field holds the integer or its decimal numeral:
    [int(float(str(n)))] is [n] for every [n] from [-2**53] to [2**53]. *)
Theorem int_float_str_exact (n : Z) :
  - 2 ^ 53 <= n <= 2 ^ 53 ->
  CmdOutputMetadata.int_float_str (PInt n) = Ok n
  /\ CmdOutputMetadata.int_float_str (PStr (str_of_int n)) = Ok n
  /\ coerced (Some (PInt n)) = n
  /\ coerced (Some (PStr (str_of_int n))) = n.
Proof.
  intros Hn. destruct (int_float_str_numeral n Hn) as [H1 H2].
  unfold coerced. by rewrite H1, H2.
Qed.

Lemma int_float_str_exact_witness :
  CmdOutputMetadata.int_float_str (PInt 127) = Ok 127
  /\ CmdOutputMetadata.int_float_str (PStr (py "-9007199254740992"))
     = Ok (-9007199254740992).
Proof.
  assert (H1 : - 2 ^ 53 <= 127 <= 2 ^ 53) by lia.
  assert (H2 : - 2 ^ 53 <= -9007199254740992 <= 2 ^ 53) by lia.
  exact (conj (proj1 (int_float_str_exact 127 H1))
              (proj1 (proj2 (int_float_str_exact (-9007199254740992) H2)))).
Defined.

(** The next integer is not a float, and is converted to its neighbour. *)
Example int_float_str_inexact :
  CmdOutputMetadata.int_float_str (PInt (2 ^ 53 + 1)) = Ok (2 ^ 53)
  /\ CmdOutputMetadata.int_float_str (PStr (str_of_int (2 ^ 53 + 1))) = Ok (2 ^ 53).
Proof. split; vm_compute; reflexivity. Qed.

End IntegerFields.

(** ** A block written as JSON is read back *)

Section BlockRoundTrip.

Import Json.

Lemma hex_val_digit (d : N) : (d < 16)%N -> hex_val (hex_digit d) = Some d.
Proof.
  intros Hd. unfold hex_val, hex_digit.
  destruct (N.ltb_spec d 10).
  - destruct (N.leb_spec 48 (48 + d)); [|lia].
    destruct (N.leb_spec (48 + d) 57); [|lia]. simpl. f_equal. lia.
  - destruct (N.leb_spec (87 + d) 57); [lia|]. rewrite andb_false_r.
    destruct (N.leb_spec 97 (87 + d)); [|lia].
    destruct (N.leb_spec (87 + d) 102); [|lia]. simpl. f_equal. lia.
Qed.

Lemma hex4_digits (n : N) :
  (n < 65536)%N ->
  hex4 (hex_digit ((n / 4096) mod 16)) (hex_digit ((n / 256) mod 16))
       (hex_digit ((n / 16) mod 16)) (hex_digit (n mod 16)) = Some n.
Proof.
  intros Hn. unfold hex4.
  rewrite !hex_val_digit by (apply N.mod_lt; discriminate). simpl. f_equal.
  zify. Z.to_euclidean_division_equations. lia.
Qed.

Lemma scanstring_u (h1 h2 h3 h4 uni : N) (s6 acc : pystr) :
  hex4 h1 h2 h3 h4 = Some uni ->
  is_high_surrogate uni = false ->
  scanstring (92 :: 117 :: h1 :: h2 :: h3 :: h4 :: s6)%N acc
  = scanstring s6 (uni :: acc).
Proof.
  intros Hhex Hhigh. cbn [scanstring N.eqb Pos.eqb]. rewrite Hhex.
  destruct s6 as [|b [|u [|g1 [|g2 [|g3 [|g4 s12]]]]]]; try reflexivity.
  by rewrite Hhigh.
Qed.

Lemma scanstring_pair (h1 h2 h3 h4 g1 g2 g3 g4 hi lo : N) (s acc : pystr) :
  hex4 h1 h2 h3 h4 = Some hi -> hex4 g1 g2 g3 g4 = Some lo ->
  is_high_surrogate hi = true -> is_low_surrogate lo = true ->
  scanstring (92 :: 117 :: h1 :: h2 :: h3 :: h4
              :: 92 :: 117 :: g1 :: g2 :: g3 :: g4 :: s)%N acc
  = scanstring s ((65536 + (hi - 55296) * 1024 + (lo - 56320))%N :: acc).
Proof.
  intros Hhi Hlo Hh Hl. cbn [scanstring N.eqb Pos.eqb]. rewrite Hhi, Hh.
  cbn [andb]. by rewrite Hlo, Hl.
Qed.

(** The decoder reads one encoded character back. *)
Lemma scanstring_escape_char (c : N) (rest acc : pystr) :
  scalar_value c = true ->
  scanstring (escape_char c ++ rest) acc = scanstring rest (c :: acc).
Proof.
  unfold scalar_value, escape_char. intros Hc.
  destruct (N.eqb_spec c 34) as [-> | H34]; [reflexivity|].
  destruct (N.eqb_spec c 92) as [-> | H92]; [reflexivity|].
  destruct (N.eqb_spec c 10) as [-> | H10]; [reflexivity|].
  destruct (N.eqb_spec c 13) as [-> | H13]; [reflexivity|].
  destruct (N.eqb_spec c 9) as [-> | H9]; [reflexivity|].
  destruct (N.eqb_spec c 12) as [-> | H12]; [reflexivity|].
  destruct (N.eqb_spec c 8) as [-> | H8]; [reflexivity|].
  assert (Hu : (c < 32 \/ 126 < c)%N ->
               scanstring
                 ((if (c <? 65536)%N then u_escape c
                   else let v := (c - 65536)%N in
                        u_escape (55296 + (v / 1024) mod 1024)
                        ++ u_escape (56320 + v mod 1024)) ++ rest) acc
               = scanstring rest (c :: acc)).
  { intros _. destruct (N.ltb_spec c 65536) as [Hlt | Hge].
    - apply scanstring_u; [by apply hex4_digits|].
      unfold is_high_surrogate.
      destruct (N.ltb_spec c 55296); [|destruct (N.ltb_spec 57343 c); [|done]].
      + destruct (N.leb_spec 55296 c); [lia | done].
      + destruct (N.leb_spec c 56319); [lia | by rewrite andb_false_r].
    - cbv zeta. set (v := (c - 65536)%N).
      assert (Hv : (v < 1048576)%N).
      { destruct (N.ltb_spec c 55296); [lia|].
        destruct (N.ltb_spec c 1114112); [lia | by rewrite andb_false_r in Hc]. }
      assert (Hcv : c = (65536 + v)%N) by (subst v; lia). clearbody v.
      assert (Hdm : v = (1024 * ((v / 1024) mod 1024) + v mod 1024)%N).
      { rewrite (N.mod_small (v / 1024))
          by (apply N.Div0.div_lt_upper_bound; lia).
        apply N.Div0.div_mod. }
      assert (Hhi : ((v / 1024) mod 1024 < 1024)%N) by (apply N.mod_lt; discriminate).
      assert (Hlo : (v mod 1024 < 1024)%N) by (apply N.mod_lt; discriminate).
      revert Hdm Hhi Hlo.
      generalize ((v / 1024) mod 1024)%N (v mod 1024)%N. intros x y Hdm Hhi Hlo.
      unfold u_escape at 1 2. cbn [app].
      rewrite (scanstring_pair _ _ _ _ _ _ _ _ (55296 + x) (56320 + y))%N.
      + f_equal. f_equal. lia.
      + apply hex4_digits. lia.
      + apply hex4_digits. lia.
      + unfold is_high_surrogate. apply andb_true_intro. split; apply N.leb_le; lia.
      + unfold is_low_surrogate. apply andb_true_intro. split; apply N.leb_le; lia. }
  destruct (N.leb_spec 32 c) as [H32 | H32]; cbn [andb].
  - destruct (N.leb_spec c 126) as [H126 | H126].
    + cbn [app scanstring].
      destruct (N.eqb_spec c 34); [done|]. destruct (N.eqb_spec c 92); [done|].
      destruct (N.ltb_spec c 32); [lia | done].
    + apply Hu. lia.
  - apply Hu. lia.
Qed.

Lemma scanstring_encoded (s rest acc : pystr) :
  Forall (fun c => scalar_value c = true) s ->
  scanstring ((s ≫= escape_char) ++ 34%N :: rest) acc
  = Some (reverse acc ++ s, rest).
Proof.
  intros Hs. revert acc. induction Hs as [|c s Hc Hs IH]; intros acc.
  - cbn. by rewrite app_nil_r.
  - cbn [mbind list_bind]. rewrite <- app_assoc.
    rewrite scanstring_escape_char by done. rewrite IH.
    by rewrite reverse_cons, <- app_assoc.
Qed.

(** [json.loads] reads a text written by [json.dumps] back. *)
Lemma scan_once_string (fuel : nat) (s rest : pystr) :
  Forall (fun c => scalar_value c = true) s ->
  scan_once (S fuel) (encode_basestring_ascii s ++ rest) = Some (PStr s, rest).
Proof.
  intros Hs. unfold encode_basestring_ascii. rewrite <- !app_assoc.
  cbn [app scan_once N.eqb Pos.eqb]. by rewrite scanstring_encoded.
Qed.

(** The loop of [JSONObject] inside [scan_once], after the opening quote of a
    key. *)
#[local] Abbreviation members_loop fuel :=
  (fix members (n : nat) (s : pystr) (pairs : list (pystr * pyobj)) {struct n}
     : option (pyobj * pystr) :=
     match n with
     | O => None
     | S n =>
         '(key, s1) ← scanstring s [];
         match skip_ws s1 with
         | c :: s2 =>
             if (c =? 58)%N then
               '(value, s3) ← scan_once fuel (skip_ws s2);
               let pairs := dict_set key value pairs in
               match skip_ws s3 with
               | d :: s4 =>
                   if (d =? 125)%N then Some (PDict pairs, s4)
                   else if (d =? 44)%N then
                     match skip_ws s4 with
                     | q :: s5 =>
                         if (q =? 34)%N then members n s5 pairs
                         else None
                     | [] => None
                     end
                   else None
               | [] => None
               end
             else None
         | [] => None
         end
     end).

Lemma scan_once_object (fuel : nat) (s1 : pystr) :
  scan_once (S fuel) (123%N :: s1)
  = match skip_ws s1 with
    | q :: s2 =>
        if (q =? 125)%N then Some (PDict [], s2)
        else if (q =? 34)%N then members_loop fuel fuel s2 []
        else None
    | [] => None
    end.
Proof. reflexivity. Qed.

(** One member as [json.dumps] writes it with [indent=2], and the members of
    a dict as the decoder stores them. *)
#[local] Abbreviation member := (fun kv : pystr * pystr =>
  py "  " ++ encode_basestring_ascii kv.1 ++ py ": "
  ++ encode_basestring_ascii kv.2).

#[local] Abbreviation stored := (fun (pairs : list (pystr * pyobj)) (d : list (pystr * pystr)) =>
  foldl (fun acc kv => dict_set kv.1 (PStr kv.2) acc) pairs d).

#[local] Abbreviation well_formed := (fun (d : list (pystr * pystr)) =>
  Forall (fun kv => Forall (fun c => scalar_value c = true) kv.1
                    /\ Forall (fun c => scalar_value c = true) kv.2) d).

Lemma join_cons (sep x : pystr) (l : list pystr) :
  Str.join sep (x :: l)
  = x ++ match l with [] => [] | _ => sep ++ Str.join sep l end.
Proof. destruct l; simpl; [by rewrite app_nil_r | done]. Qed.

Lemma scan_once_members (fuel : nat) (s1 s2 : pystr) :
  skip_ws s1 = 34%N :: s2 ->
  scan_once (S fuel) (123%N :: s1) = members_loop fuel fuel s2 [].
Proof. intros H. rewrite scan_once_object, H. reflexivity. Qed.

Lemma skip_ws_encoded (v r : pystr) :
  skip_ws (encode_basestring_ascii v ++ r) = encode_basestring_ascii v ++ r.
Proof. reflexivity. Qed.

Lemma members_encoded (f : nat) (rest : pystr) (d : list (pystr * pystr)) :
  forall (k v : pystr) (pairs : list (pystr * pyobj)) (n : nat),
    (length d < n)%nat ->
    Forall (fun c => scalar_value c = true) k ->
    Forall (fun c => scalar_value c = true) v ->
    well_formed d ->
    members_loop (S f) n
      ((k ≫= escape_char) ++ [34%N] ++ py ": " ++ encode_basestring_ascii v
       ++ match d with
          | [] => []
          | _ => (py "," ++ [10%N]) ++ Str.join (py "," ++ [10%N]) (member <$> d)
          end
       ++ [10%N] ++ py "}" ++ rest) pairs
    = Some (PDict (stored (dict_set k (PStr v) pairs) d), rest).
Proof.
  induction d as [|[k' v'] d IH]; intros k v pairs n Hn Hk Hv Hd;
    (destruct n as [|n]; [simpl in Hn; lia|]).
  - cbn [app]. rewrite scanstring_encoded by done. cbn [mbind option_bind].
    change (py ": ") with [58%N; 32%N]. change (py "}") with [125%N].
    cbn [app skip_ws is_ws N.eqb Pos.eqb orb].
    rewrite skip_ws_encoded, scan_once_string by done.
    cbn [mbind option_bind skip_ws is_ws N.eqb Pos.eqb orb]. reflexivity.
  - apply Forall_cons in Hd as [[Hk' Hv'] Hd]. cbn [fst snd] in Hk', Hv'.
    cbn [app]. rewrite scanstring_encoded by done. cbn [mbind option_bind].
    change (py ": ") with [58%N; 32%N]. change (py ",") with [44%N].
    cbn [app skip_ws is_ws N.eqb Pos.eqb orb].
    rewrite skip_ws_encoded, scan_once_string by done.
    cbn [mbind option_bind skip_ws is_ws N.eqb Pos.eqb orb].
    cbn [fmap list_fmap]. rewrite join_cons.
    change (py "  ") with [32%N; 32%N]. unfold encode_basestring_ascii at 1.
    cbn [app skip_ws is_ws N.eqb Pos.eqb orb fst snd].
    rewrite <- !app_assoc. cbn [foldl fst snd].
    specialize (IH k' v' (dict_set k (PStr v) pairs) n).
    rewrite <- IH; [|simpl in Hn; lia|done..].
    cbn [app]. change (py ": ") with [58%N; 32%N]. change (py ",") with [44%N].
    destruct d; reflexivity.
Qed.

Lemma skip_ws_app (pre s : pystr) :
  Forall (fun c => is_ws c = true) pre -> skip_ws (pre ++ s) = skip_ws s.
Proof. induction 1 as [|c pre Hc Hpre IH]; simpl; [done|]. by rewrite Hc. Qed.

Lemma join_members_length (d : list (pystr * pystr)) :
  (length d <= length (Str.join (py "," ++ [10%N]) (member <$> d)))%nat.
Proof.
  induction d as [|kv d IH]; [done|].
  cbn [fmap list_fmap]. rewrite join_cons, !length_app.
  change (length (py "  ")) with 2%nat.
  destruct d as [|kv' d]; [simpl; lia|].
  cbn [fmap list_fmap] in *. rewrite length_app. cbn [length] in *. lia.
Qed.

(** [json.loads] reads back what [json.dumps] writes with [indent=2] for a
    dict from texts to texts, also between JSON whitespace. *)
Lemma loads_dumps_indent2 (pre post : pystr) (d : list (pystr * pystr)) :
  Forall (fun c => is_ws c = true) pre ->
  Forall (fun c => is_ws c = true) post ->
  well_formed d ->
  loads (pre ++ dumps_indent2 d ++ post) = Ok (PDict (stored [] d)).
Proof.
  intros Hpre Hpost Hd. unfold loads, decode.
  assert (Hend : skip_ws post = []).
  { rewrite <- (app_nil_r post). by rewrite skip_ws_app. }
  rewrite skip_ws_app by done.
  destruct d as [|[k v] d].
  - change (dumps_indent2 []) with [123%N; 125%N].
    cbn [app skip_ws is_ws N.eqb Pos.eqb orb]. rewrite scan_once_object.
    cbn [skip_ws is_ws N.eqb Pos.eqb orb mbind option_bind]. by rewrite Hend.
  - assert (Hlen : (length d
                    < length (pre ++ dumps_indent2 ((k, v) :: d) ++ post))%nat).
    { rewrite !length_app. unfold dumps_indent2. rewrite !length_app.
      pose proof (join_members_length ((k, v) :: d)). simpl in *. lia. }
    destruct (length (pre ++ dumps_indent2 ((k, v) :: d) ++ post)) as [|f];
      [lia|].
    apply Forall_cons in Hd as [[Hk Hv] Hd]. cbn [fst snd] in Hk, Hv.
    assert (Htext :
      dumps_indent2 ((k, v) :: d) ++ post
      = 123%N :: [10%N; 32%N; 32%N]
        ++ 34%N :: ((k ≫= escape_char) ++ [34%N] ++ py ": "
                    ++ encode_basestring_ascii v
                    ++ match d with
                       | [] => []
                       | _ => (py "," ++ [10%N])
                              ++ Str.join (py "," ++ [10%N]) (member <$> d)
                       end
                    ++ [10%N] ++ py "}" ++ post)).
    { unfold dumps_indent2. cbn [fmap list_fmap]. rewrite join_cons.
      unfold encode_basestring_ascii at 1. cbn [fst snd].
      change (py "{") with [123%N]. change (py "  ") with [32%N; 32%N] at 1.
      rewrite <- !app_assoc. cbn [app]. do 5 f_equal. by destruct d. }
    rewrite Htext. cbn [skip_ws is_ws N.eqb Pos.eqb orb].
    erewrite scan_once_members by reflexivity.
    rewrite (members_encoded f post d k v [] (S f)) by done.
    cbn [mbind option_bind]. by rewrite Hend.
Qed.

Lemma lstrip_with_app (sp : N -> bool) (pre : pystr) (a : N) (t : pystr) :
  Forall (fun c => sp c = true) pre -> sp a = false ->
  Str.lstrip_with sp (pre ++ a :: t) = a :: t.
Proof.
  intros Hpre Ha. induction Hpre as [|c pre Hc Hpre IH]; simpl.
  - by rewrite Ha.
  - by rewrite Hc.
Qed.

Lemma strip_with_around (sp : N -> bool) (pre post s : pystr) (a b : N) :
  Forall (fun c => sp c = true) pre -> Forall (fun c => sp c = true) post ->
  sp a = false -> sp b = false ->
  Str.strip_with sp (pre ++ (a :: s ++ [b]) ++ post) = a :: s ++ [b].
Proof.
  intros Hpre Hpost Ha Hb. unfold Str.strip_with.
  cbn [app]. rewrite lstrip_with_app by done.
  change (a :: (s ++ [b]) ++ post) with (((a :: s) ++ [b]) ++ post).
  rewrite !reverse_app, reverse_singleton. cbn [app].
  rewrite lstrip_with_app by (done || by apply Forall_reverse).
  by rewrite reverse_cons, reverse_involutive.
Qed.

(** The END literal does not run over a newline: where it occurs nowhere in
    [s], it starts nowhere in [s] when a newline follows [s]. *)
Lemma no_END_before_newline (s rest : pystr) (j : nat) :
  Str.find END_LITERAL s = None ->
  (j <= length s)%nat ->
  ~ END_LITERAL `prefix_of` drop j (s ++ 10%N :: rest).
Proof.
  intros Hfind Hj Hp.
  destruct (decide (j + 12 <= length s)%nat) as [Hin | Hout].
  - apply (find_None_absent END_LITERAL s j); [discriminate | done|].
    unfold occurs_at. rewrite drop_app_le in Hp by done.
    apply (prefix_of_app_l _ _ _ Hp). rewrite length_drop, END_LITERAL_length. lia.
  - destruct Hp as [t Ht].
    assert (Hnl : (drop j (s ++ 10%N :: rest)) !! (length s - j)%nat = Some 10%N).
    { rewrite lookup_drop.
      replace (j + (length s - j))%nat with (length s + 0)%nat by lia.
      by rewrite lookup_app_r, Nat.add_0_r, Nat.sub_diag by lia. }
    rewrite Ht, lookup_app_l in Hnl by (rewrite END_LITERAL_length; lia).
    assert (Hall : Forall (fun c => c <> 10%N) END_LITERAL)
      by (repeat constructor; discriminate).
    rewrite Forall_lookup in Hall. by apply (Hall _ _ Hnl).
Qed.

(** The scan of a capture that holds one block after a newline. *)
Lemma finditer_one_block (g : pystr) :
  (forall j, (j < length g)%nat ->
     ~ END_LITERAL `prefix_of` drop j (g ++ END_LITERAL ++ NL)) ->
  Regex.finditer (NL ++ BEGIN_LITERAL ++ g ++ END_LITERAL ++ NL)
  = [mkMatch 1 (26 + length g) g].
Proof.
  intros Hmin. set (text := NL ++ BEGIN_LITERAL ++ g ++ END_LITERAL ++ NL).
  set (m := mkMatch 1 (26 + length g) g).
  assert (Hlen : length text = (27 + length g)%nat).
  { unfold text. rewrite !length_app, BEGIN_LITERAL_length, END_LITERAL_length.
    simpl. lia. }
  assert (Hr : region text m).
  { apply (region_here NL (BEGIN_LITERAL ++ g ++ END_LITERAL ++ NL) (25 + length g) g).
    - right. by exists O.
    - apply match_here_Some. split; [by exists NL|]. split.
      + intros j Hj. rewrite drop_app_length. by apply Hmin.
      + rewrite BEGIN_LITERAL_length, END_LITERAL_length. lia. }
  destruct (finditer_regions text) as (Hsound & Hsorted & Hcompl).
  assert (Hin : m ∈ Regex.finditer text).
  { destruct (Hcompl m Hr) as [Hin | (m0 & Hin0 & Hlt)]; [done|]. exfalso.
    destruct (Hsound m0 Hin0) as (_ & [post Hpost] & _).
    assert (m_start m0 = O) as Hz by (simpl in Hlt; lia).
    rewrite Hz in Hpost. discriminate. }
  assert (Hall : forall m', m' ∈ Regex.finditer text -> m' = m).
  { intros m' Hin'.
    destruct (sorted_before_cases _ m' m Hsorted Hin' Hin) as [-> | [Hb | Hb]];
      [done | exfalso ..]; unfold before in Hb.
    - destruct (Hsound m' Hin') as (_ & _ & _ & Hend).
      rewrite BEGIN_LITERAL_length in Hend. simpl in Hb. lia.
    - destruct (Hsound m' Hin') as (_ & [post Hpost] & _).
      apply (f_equal length) in Hpost.
      rewrite length_drop, !length_app, BEGIN_LITERAL_length in Hpost.
      simpl in Hb. lia. }
  destruct (Regex.finditer text) as [|a [|b l]] eqn:Hf.
  - by apply elem_of_nil in Hin.
  - f_equal. apply Hall. left.
  - exfalso. assert (a = m) as -> by (apply Hall; left).
    assert (b = m) as -> by (apply Hall; right; left).
    apply StronglySorted_inv in Hsorted as [_ Hfa].
    apply Forall_cons in Hfa as [Hb _]. unfold before in Hb. simpl in Hb. lia.
Qed.

(** X21: A block that holds the JSON of a process id, an exit code and the four
    names, written as [json.dumps] writes the template of [to_ps1_prompt], is
    found by [matches_ps1_metadata] as the one match of the capture, and
    [from_ps1_match] decodes that match into the metadata with exactly these
    values.  This needs the two numbers to have at most 53 bits, the names to
    be well-formed texts, and the END literal not to occur in the JSON. *)
Theorem printed_block_round_trip (pid exit_code : Z)
    (username hostname working_dir py_interpreter_path : pystr) :
  - 2 ^ 53 <= pid <= 2 ^ 53 ->
  - 2 ^ 53 <= exit_code <= 2 ^ 53 ->
  Forall (fun c => scalar_value c = true)
    (username ++ hostname ++ working_dir ++ py_interpreter_path) ->
  Str.find END_LITERAL
    (metadata_json pid exit_code username hostname working_dir
       py_interpreter_path) = None ->
  exists m,
    CmdOutputMetadata.matches_ps1_metadata
      (printed_block
         (metadata_json pid exit_code username hostname working_dir
            py_interpreter_path))
    = Ok [m]
    /\ CmdOutputMetadata.from_ps1_match m
       = Ok (CmdOutputMetadata.mk exit_code pid (Some username) (Some hostname)
               (Some working_dir) (Some py_interpreter_path) [] []).
Proof.
  intros Hpid Hec Hnames Hfind.
  apply Forall_app in Hnames as [Hu Hnames].
  apply Forall_app in Hnames as [Hh Hnames].
  apply Forall_app in Hnames as [Hw Hi].
  set (json := metadata_json pid exit_code username hostname working_dir
                 py_interpreter_path) in *.
  set (d := [ (py "pid", Num.str_of_int pid);
              (py "exit_code", Num.str_of_int exit_code);
              (py "username", username);
              (py "hostname", hostname);
              (py "working_dir", working_dir);
              (py "py_interpreter_path", py_interpreter_path) ]).
  assert (Hdigits : forall n, Forall (fun c => scalar_value c = true)
                                (Num.str_of_int n)).
  { intros n.
    assert (Hds : forall u, Forall (fun c => scalar_value c = true)
                              (Num.digits_of_uint u)).
    { intros u. eapply Forall_impl; [apply digits_of_uint_digits|].
      intros c [H1 H2]%andb_prop. apply N.leb_le in H1, H2.
      unfold scalar_value. destruct (N.ltb_spec c 55296); [done | lia]. }
    destruct n; simpl; [by repeat constructor | done | by constructor]. }
  assert (Hd : well_formed d).
  { repeat constructor; cbn [fst snd]; try done; by vm_compute. }
  assert (Hloads : forall pre post,
             Forall (fun c => Json.is_ws c = true) pre ->
             Forall (fun c => Json.is_ws c = true) post ->
             Json.loads (pre ++ json ++ post)
             = Ok (PDict [ (py "pid", PStr (Num.str_of_int pid));
                           (py "exit_code", PStr (Num.str_of_int exit_code));
                           (py "username", PStr username);
                           (py "hostname", PStr hostname);
                           (py "working_dir", PStr working_dir);
                           (py "py_interpreter_path", PStr py_interpreter_path) ])).
  { intros pre post Hpre Hpost.
    exact (loads_dumps_indent2 pre post d Hpre Hpost Hd). }
  assert (Hshape : exists s, json = 123%N :: s ++ [125%N]).
  { exists (10%N :: Str.join (py "," ++ [10%N]) (member <$> d) ++ [10%N]).
    unfold json, metadata_json, dumps_indent2. fold d.
    change (py "{") with [123%N]. change (py "}") with [125%N].
    cbn [app]. by rewrite <- app_assoc. }
  clearbody json. clear d Hd.
  set (g := NL ++ json ++ NL).
  assert (Htext : printed_block json
                  = NL ++ BEGIN_LITERAL ++ g ++ END_LITERAL ++ NL).
  { unfold printed_block, g.
    change CMD_OUTPUT_PS1_BEGIN with (NL ++ BEGIN_LITERAL ++ NL).
    change CMD_OUTPUT_PS1_END with (NL ++ END_LITERAL).
    by rewrite <- !app_assoc. }
  assert (Hscan : Regex.finditer (printed_block json)
                  = [mkMatch 1 (26 + length g) g]).
  { rewrite Htext. apply finditer_one_block. intros j Hj.
    unfold g. rewrite <- !app_assoc. destruct j as [|j].
    - intros Hp. apply prefix_cons_inv_1 in Hp. discriminate.
    - change (drop (S j) (NL ++ json ++ NL ++ END_LITERAL ++ NL))
        with (drop j (json ++ 10%N :: END_LITERAL ++ NL)).
      apply no_END_before_newline; [done|].
      unfold g in Hj. rewrite !length_app in Hj. simpl in Hj. lia. }
  assert (Hstrip : Str.strip g = json).
  { destruct Hshape as [s ->]. unfold g, Str.strip.
    apply strip_with_around; by repeat constructor. }
  exists (mkMatch 1 (26 + length g) g). split.
  - rewrite matches_ps1_metadata_filter, Hscan.
    rewrite filter_cons_True; [done|]. cbn [m_group1]. rewrite Hstrip.
    eexists. rewrite <- (app_nil_r json). by apply (Hloads [] []).
  - unfold CmdOutputMetadata.from_ps1_match. cbn [m_group1]. unfold g.
    rewrite Hloads by (by repeat constructor).
    cbn [mbind result_bind]. rewrite convert_field_spec.
    match goal with
    | |- context [dict_get (py "pid") ?D] =>
        change (dict_get (py "pid") D) with (Some (PStr (Num.str_of_int pid)))
    end.
    cbv iota. rewrite (proj2 (int_float_str_numeral pid Hpid)).
    cbn [mbind result_bind]. rewrite convert_field_spec.
    match goal with
    | |- context [dict_get (py "exit_code") ?D] =>
        change (dict_get (py "exit_code") D)
          with (Some (PStr (Num.str_of_int exit_code)))
    end.
    cbv iota. rewrite (proj2 (int_float_str_numeral exit_code Hec)).
    reflexivity.
Qed.

Lemma printed_block_round_trip_witness :
  exists m,
    CmdOutputMetadata.matches_ps1_metadata
      (printed_block
         (metadata_json 4242 127 (py "dev") (py "box") (py "/home/dev/a b")
            (py "/usr/bin/python")))
    = Ok [m]
    /\ CmdOutputMetadata.from_ps1_match m
       = Ok (CmdOutputMetadata.mk 127 4242 (Some (py "dev")) (Some (py "box"))
               (Some (py "/home/dev/a b")) (Some (py "/usr/bin/python")) [] []).
Proof.
  apply printed_block_round_trip.
  - lia.
  - lia.
  - apply (bool_decide_unpack _). vm_compute. exact I.
  - vm_compute. reflexivity.
Defined.

End BlockRoundTrip.

(** ** The prompt template *)

Section PromptTemplate.

(** X22: [to_ps1_prompt] returns the template between the two markers with every
    double quote escaped, so the prompt text itself holds no metadata block.
    The block the shell prints for it with the escapes removed and nothing
    expanded is a block: [matches_ps1_metadata] returns it and
    [from_ps1_match] decodes it, with -1 for the process id and the exit code,
    whose placeholders are no numerals, and the placeholders as the four
    names. *)
Theorem to_ps1_prompt_template :
  CmdOutputMetadata.to_ps1_prompt
  = printed_block
      (Str.replace_char 34%N [92%N; 34%N]
         (Json.dumps_indent2 CmdOutputMetadata.PS1_PLACEHOLDERS))
  /\ CmdOutputMetadata.matches_ps1_metadata CmdOutputMetadata.to_ps1_prompt
     = Ok []
  /\ unexpanded_block
     = printed_block (Json.dumps_indent2 CmdOutputMetadata.PS1_PLACEHOLDERS)
  /\ CmdOutputMetadata.matches_ps1_metadata unexpanded_block
     = Ok [unexpanded_region]
  /\ CmdOutputMetadata.from_ps1_match unexpanded_region
     = Ok (CmdOutputMetadata.mk (-1) (-1) (Some (py "\u")) (Some (py "\h"))
             (Some (py "$(pwd)"))
             (Some (py "$(which python 2>/dev/null || echo "
                    ++ [34%N; 34%N] ++ py ")"))
             [] []).
Proof.
  repeat match goal with |- _ /\ _ => split end; vm_compute; reflexivity.
Qed.

End PromptTemplate.

(** ** The rendering of a single observation *)

Section SingleRendering.

(** The prefix, the content and the suffix of an observation. *)
#[local] Abbreviation body o :=
  (CmdOutputMetadata.prefix (CmdOutputObservation.metadata o)
   ++ CmdOutputObservation.content o
   ++ CmdOutputMetadata.suffix (CmdOutputObservation.metadata o)).

(** X23: The text an agent sees for a single command starts with the prefix,
    the content and the suffix of the observation, and ends with the line of
    the exit code unless the exit code is -1.  With no working directory, no
    interpreter and exit code -1 nothing is added; so an observation
    constructed without metadata renders as the content it stores. *)
Theorem to_agent_observation_shape (o : CmdOutputObservation.t) :
  body o `prefix_of` CmdOutputObservation.to_agent_observation o
  /\ (CmdOutputObservation.exit_code o <> -1 ->
      ([10%N] ++ py "[Command finished with exit code "
       ++ Num.str_of_int (CmdOutputObservation.exit_code o) ++ py "]")
      `suffix_of` CmdOutputObservation.to_agent_observation o)
  /\ (CmdOutputObservation.exit_code o = -1 ->
      truthy (CmdOutputMetadata.working_dir (CmdOutputObservation.metadata o))
        = None ->
      truthy (CmdOutputMetadata.py_interpreter_path
                (CmdOutputObservation.metadata o)) = None ->
      CmdOutputObservation.to_agent_observation o = body o)
  /\ (forall content command observation hidden,
        exists o',
          CmdOutputObservation.init content command observation MetaNone hidden
            no_kwargs = Ok o'
          /\ CmdOutputObservation.to_agent_observation o'
             = stored_content hidden content).
Proof.
  unfold CmdOutputObservation.to_agent_observation,
    CmdOutputObservation.exit_code.
  set (md := CmdOutputObservation.metadata o).
  set (b := CmdOutputMetadata.prefix md ++ CmdOutputObservation.content o
            ++ CmdOutputMetadata.suffix md).
  split; [|split; [|split]].
  - destruct (truthy (CmdOutputMetadata.working_dir md)),
      (truthy (CmdOutputMetadata.py_interpreter_path md)),
      (negb (CmdOutputMetadata.exit_code md =? -1));
      rewrite <- ?app_assoc; (by apply prefix_app_r) || done.
  - intros Hne. apply Z.eqb_neq in Hne. rewrite Hne. cbn [negb].
    apply suffix_app_r. done.
  - intros He -> ->. by rewrite He.
  - intros content command observation hidden. eexists. split; [reflexivity|].
    cbn. rewrite app_nil_r. by destruct hidden.
Qed.

End SingleRendering.
